(** * Cache-consistency strategies of [app.py]: a shallow embedding.

    The Flask application coordinates a Redis cache with an SQLite table
    through five read/write strategies and a write-back worker thread.
    The embedding below follows [src/app.py] function by function.  The two
    external services are modelled by their observable state (the Redis
    key space, the committed [products] table), a log of the commands sent
    to them, and a fault plan that says which command raises.  Python
    exceptions are the [Raised] outcomes of a state-and-error monad.
    Threads are interleaved at the level of whole calls: a request
    handler runs a strategy function to its end, the write-back worker
    runs one pass of its loop body at a time. *)

From Stdlib Require Import ZArith QArith Lia.
From stdpp Require Import base option list strings gmap pretty.

Set Warnings "-register-all".
Local Open Scope string_scope.
Local Open Scope Z_scope.

(** ** Python values *)

(** Values that travel as JSON: request bodies, cached documents, column
    values.  A float is carried by its [repr] (two floats are equal exactly
    when their shortest representations are), a dict by its items in
    insertion order.  [JNull] is Python's [None]. *)
Inductive json :=
| JNull
| JBool (b : bool)
| JInt (n : Z)
| JFloat (repr : string)
| JStr (s : string)
| JList (elems : list json)
| JDict (fields : list (string * json)).

Definition dict : Type := list (string * json).

(** Python truth value, as tested by [if product:] and [not product_data]. *)
Definition truthy (j : json) : bool :=
  match j with
  | JNull => false
  | JBool b => b
  | JInt n => negb (n =? 0)
  | JFloat r => negb (String.eqb r "0.0" || String.eqb r "-0.0")
  | JStr s => negb (String.eqb s "")
  | JList l => match l with [] => false | _ => true end
  | JDict d => match d with [] => false | _ => true end
  end.

Fixpoint dict_lookup (k : string) (d : dict) : option json :=
  match d with
  | [] => None
  | (k', v) :: d' => if String.eqb k k' then Some v else dict_lookup k d'
  end.

(** [d.get(k)]: the value, or [None] when the key is absent. *)
Definition dict_get (k : string) (d : dict) : json :=
  default JNull (dict_lookup k d).

(** [k in d]. *)
Definition dict_contains (k : string) (d : dict) : bool :=
  match dict_lookup k d with Some _ => true | None => false end.

(** [x is None]. *)
Definition is_none (j : json) : bool :=
  match j with JNull => true | _ => false end.

(** [repr(x)] and [str(x)], the latter being what an f-string inserts.
    String escapes inside [repr] of a [str] are not rendered. *)
Fixpoint py_repr (j : json) : string :=
  match j with
  | JNull => "None"
  | JBool true => "True"
  | JBool false => "False"
  | JInt n => pretty n
  | JFloat r => r
  | JStr s => "'" +:+ s +:+ "'"
  | JList l => "[" +:+ String.concat ", " (map py_repr l) +:+ "]"
  | JDict d =>
      "{" +:+ String.concat ", "
                (map (fun kv => "'" +:+ fst kv +:+ "': " +:+ py_repr (snd kv)) d)
          +:+ "}"
  end.

Definition py_str (j : json) : string :=
  match j with
  | JStr s => s
  | _ => py_repr j
  end.

(** A Redis string value, up to JSON decoding: the text of a document
    ([json.dumps] produces one, [json.loads] gives the document back), the
    empty string, or a non-empty string that [json.loads] rejects. *)
Inductive payload :=
| Encoded (doc : json)
| EmptyText
| Garbage.

Definition json_dumps (product_data : dict) : payload := Encoded (JDict product_data).

(** [if cached_data:] on a [str]. *)
Definition payload_truthy (p : payload) : bool :=
  match p with
  | EmptyText => false
  | _ => true
  end.

(** ** Exceptions and outcomes *)

Inductive exn :=
| ValueError
| IOError
| KeyError
| SqliteError          (* sqlite3.Error *)
| OverflowError        (* raised by [sqlite3] itself; not an [sqlite3.Error] *)
| RedisError           (* redis.exceptions.RedisError *)
| JSONDecodeError      (* json.JSONDecodeError *)
| QueueEmpty.          (* queue.Empty *)

Inductive outcome (A : Type) :=
| Returned (a : A)
| Raised (e : exn).
Arguments Returned {A} a.
Arguments Raised {A} e.

Definition json_loads (p : payload) : outcome json :=
  match p with
  | Encoded doc => Returned doc
  | _ => Raised JSONDecodeError
  end.

(** ** Metrics *)

Record Metrics := {
  cache_hits : Z;
  cache_misses : Z;
  db_reads : Z;
  db_writes : Z;
  operation_times : gmap string (gmap string (list Q))
}.

Definition empty_times : gmap string (list Q) :=
  <["read" := []]> (<["write" := []]> ∅).

Definition Metrics_reset : Metrics :=
  {| cache_hits := 0; cache_misses := 0; db_reads := 0; db_writes := 0;
     operation_times :=
       <["cache_aside" := empty_times]>
       (<["read_through" := empty_times]>
       (<["write_through" := empty_times]>
       (<["write_around" := empty_times]>
       (<["write_back" := empty_times]> ∅)))) |}.

Definition Metrics_record_cache_hit (self : Metrics) : Metrics :=
  {| cache_hits := cache_hits self + 1; cache_misses := cache_misses self;
     db_reads := db_reads self; db_writes := db_writes self;
     operation_times := operation_times self |}.

Definition Metrics_record_cache_miss (self : Metrics) : Metrics :=
  {| cache_hits := cache_hits self; cache_misses := cache_misses self + 1;
     db_reads := db_reads self; db_writes := db_writes self;
     operation_times := operation_times self |}.

Definition Metrics_record_db_read (self : Metrics) : Metrics :=
  {| cache_hits := cache_hits self; cache_misses := cache_misses self;
     db_reads := db_reads self + 1; db_writes := db_writes self;
     operation_times := operation_times self |}.

Definition Metrics_record_db_write (self : Metrics) : Metrics :=
  {| cache_hits := cache_hits self; cache_misses := cache_misses self;
     db_reads := db_reads self; db_writes := db_writes self + 1;
     operation_times := operation_times self |}.

Definition Metrics_record_time (strategy operation : string) (elapsed_time : Q)
    (self : Metrics) : Metrics :=
  let ops := default empty_times (operation_times self !! strategy) in
  let samples : list Q := default [] (ops !! operation) in
  {| cache_hits := cache_hits self; cache_misses := cache_misses self;
     db_reads := db_reads self; db_writes := db_writes self;
     operation_times :=
       <[strategy := <[operation := (samples ++ [elapsed_time])%list]> ops]>
         (operation_times self) |}.

Record OpAverages := { avg_read : Q; avg_write : Q }.

Record Stats := {
  stats_cache_hits : Z;
  stats_cache_misses : Z;
  hit_rate : Q;
  stats_db_reads : Z;
  stats_db_writes : Z;
  avg_operation_times : gmap string OpAverages
}.

Definition Qsum (l : list Q) : Q := foldr Qplus 0%Q l.

(** [sum(xs) / len(xs) if xs else 0]. *)
Definition average (samples : list Q) : Q :=
  match samples with
  | [] => 0%Q
  | _ => (Qsum samples / inject_Z (Z.of_nat (length samples)))%Q
  end.

(** One entry of [avg_times]; [ops["read"]] on a missing key is a KeyError. *)
Definition strategy_averages (ops : gmap string (list Q)) : option OpAverages :=
  match ops !! "read", ops !! "write" with
  | Some r, Some w => Some {| avg_read := average r; avg_write := average w |}
  | _, _ => None
  end.

(** [Metrics.get_stats].  Python's true division yields a float; the
    quotient is kept here as the exact rational it approximates. *)
Definition get_stats (self : Metrics) : outcome Stats :=
  let total_lookups := cache_hits self + cache_misses self in
  let hit_rate :=
    if 0 <? total_lookups
    then (inject_Z (cache_hits self) / inject_Z total_lookups * 100)%Q
    else 0%Q in
  let avg_times := strategy_averages <$> operation_times self in
  if decide (map_Forall (fun _ (o : option OpAverages) => is_Some o) avg_times)
  then Returned
         {| stats_cache_hits := cache_hits self;
            stats_cache_misses := cache_misses self;
            hit_rate := hit_rate;
            stats_db_reads := db_reads self;
            stats_db_writes := db_writes self;
            avg_operation_times := omap id avg_times |}
  else Raised KeyError.

(** ** The world the engine runs in *)

(** *** Redis *)

Inductive redis_cmd :=
| GET (key : string)
| SETEX (key : string) (ttl : Z) (value : payload)
| DEL (key : string).

Definition cmd_key (c : redis_cmd) : string :=
  match c with
  | GET k => k
  | SETEX k _ _ => k
  | DEL k => k
  end.

(** The key space maps a key to its value and the TTL it was set with
    (expiry is the server's business and is not played out here).  Every
    command sent is appended to [redis_log]; command number [n] raises a
    [RedisError], without effect on the key space, when [redis_fault n]. *)
Record Redis := {
  entries : gmap string (payload * Z);
  redis_log : list redis_cmd;
  redis_fault : nat -> bool
}.

(** *** SQLite *)

Record Row := {
  row_name : json;
  row_price : json;
  row_description : json
}.

Inductive sql_cmd :=
| CONNECT
| SELECT (id : json)
| UPDATE (id : json) (r : Row)
| INSERT (id : json) (r : Row)
| COMMIT
| ROLLBACK.

(** [products] is the committed table, keyed by the INTEGER PRIMARY KEY.
    [pending] is the open transaction of the connection in use (an
    executed but uncommitted UPDATE/INSERT).  [g_db] tells whether Flask's
    [g] already holds a connection.  Statement number [n] raises
    [sqlite3.Error] when [sqlite_fault n].  A statement sees the
    committed table. *)
Record Sqlite := {
  products : gmap Z Row;
  pending : option (Z * Row);
  g_db : bool;
  sql_log : list sql_cmd;
  sqlite_fault : nat -> bool
}.

(** *** queue.Queue *)

Record Queue := {
  queue_items : list dict;
  unfinished_tasks : Z
}.

(** *** Globals of the module *)

Record World := {
  metrics : Metrics;
  redis_client : Redis;
  database : Sqlite;
  write_back_queue : Queue;
  write_back_running : bool;
  (** [None], or the thread object with its [is_alive()] *)
  write_back_thread : option bool;
  (** [time.monotonic()]: reading number [n] is [clock n] *)
  clock : nat -> Q;
  clock_reads : nat
}.

Definition set_metrics (f : Metrics -> Metrics) (w : World) : World :=
  {| metrics := f (metrics w); redis_client := redis_client w;
     database := database w; write_back_queue := write_back_queue w;
     write_back_running := write_back_running w;
     write_back_thread := write_back_thread w;
     clock := clock w; clock_reads := clock_reads w |}.

Definition set_redis (r : Redis) (w : World) : World :=
  {| metrics := metrics w; redis_client := r;
     database := database w; write_back_queue := write_back_queue w;
     write_back_running := write_back_running w;
     write_back_thread := write_back_thread w;
     clock := clock w; clock_reads := clock_reads w |}.

Definition set_database (d : Sqlite) (w : World) : World :=
  {| metrics := metrics w; redis_client := redis_client w;
     database := d; write_back_queue := write_back_queue w;
     write_back_running := write_back_running w;
     write_back_thread := write_back_thread w;
     clock := clock w; clock_reads := clock_reads w |}.

Definition set_queue (q : Queue) (w : World) : World :=
  {| metrics := metrics w; redis_client := redis_client w;
     database := database w; write_back_queue := q;
     write_back_running := write_back_running w;
     write_back_thread := write_back_thread w;
     clock := clock w; clock_reads := clock_reads w |}.

Definition set_running (b : bool) (w : World) : World :=
  {| metrics := metrics w; redis_client := redis_client w;
     database := database w; write_back_queue := write_back_queue w;
     write_back_running := b;
     write_back_thread := write_back_thread w;
     clock := clock w; clock_reads := clock_reads w |}.

Definition set_thread (t : option bool) (w : World) : World :=
  {| metrics := metrics w; redis_client := redis_client w;
     database := database w; write_back_queue := write_back_queue w;
     write_back_running := write_back_running w;
     write_back_thread := t;
     clock := clock w; clock_reads := clock_reads w |}.

Definition set_clock_reads (n : nat) (w : World) : World :=
  {| metrics := metrics w; redis_client := redis_client w;
     database := database w; write_back_queue := write_back_queue w;
     write_back_running := write_back_running w;
     write_back_thread := write_back_thread w;
     clock := clock w; clock_reads := n |}.

(** ** The monad of effects: state passing with exceptions *)

Definition M (A : Type) : Type := World -> outcome A * World.

Definition ret {A} (a : A) : M A := fun w => (Returned a, w).

Definition raise {A} (e : exn) : M A := fun w => (Raised e, w).

Definition bind {A B} (m : M A) (k : A -> M B) : M B :=
  fun w =>
    match m w with
    | (Returned a, w') => k a w'
    | (Raised e, w') => (Raised e, w')
    end.

(** [try: body / except ...: handler e]; a handler that does not handle
    [e] re-raises it. *)
Definition try_except {A} (body : M A) (handler : exn -> M A) : M A :=
  fun w =>
    match body w with
    | (Returned a, w') => (Returned a, w')
    | (Raised e, w') => handler e w'
    end.

(** [try: body / finally: fin]; an exception of [fin] wins. *)
Definition try_finally {A} (body : M A) (fin : M unit) : M A :=
  fun w =>
    match body w with
    | (r, w') =>
        match fin w' with
        | (Returned _, w'') => (r, w'')
        | (Raised e, w'') => (Raised e, w'')
        end
    end.

Declare Scope py_scope.
Delimit Scope py_scope with py.
Notation "x <- m ;; k" := (bind m (fun x => k))
  (at level 100, m at next level, right associativity) : py_scope.
Notation "m ;; k" := (bind m (fun _ => k))
  (at level 100, right associativity) : py_scope.
Local Open Scope py_scope.

Definition modify (f : World -> World) : M unit := fun w => (Returned tt, f w).

Definition run {A} (m : M A) (w : World) : outcome A := fst (m w).
Definition exec {A} (m : M A) (w : World) : World := snd (m w).

(** ** The services, as the client libraries expose them *)

(** Sends one command to Redis: logs it and raises when the fault plan
    says so. *)
Definition redis_send (c : redis_cmd) : M unit := fun w =>
  let r := redis_client w in
  let r' := {| entries := entries r; redis_log := (redis_log r ++ [c])%list;
               redis_fault := redis_fault r |} in
  if redis_fault r (length (redis_log r))
  then (Raised RedisError, set_redis r' w)
  else (Returned tt, set_redis r' w).

Definition set_entries (f : gmap string (payload * Z) -> gmap string (payload * Z))
    (w : World) : World :=
  let r := redis_client w in
  set_redis {| entries := f (entries r); redis_log := redis_log r;
               redis_fault := redis_fault r |} w.

(** [redis_client.get(key)] *)
Definition redis_get (key : string) : M (option payload) :=
  redis_send (GET key) ;;
  fun w => (Returned (fst <$> entries (redis_client w) !! key), w).

(** [redis_client.setex(key, ttl, value)] *)
Definition redis_setex (key : string) (ttl : Z) (value : payload) : M unit :=
  redis_send (SETEX key ttl value) ;;
  modify (set_entries (fun m => <[key := (value, ttl)]> m)).

(** [redis_client.delete(key)]: the number of keys removed. *)
Definition redis_delete (key : string) : M Z :=
  redis_send (DEL key) ;;
  fun w =>
    match entries (redis_client w) !! key with
    | Some _ => (Returned 1, set_entries (fun m => delete key m) w)
    | None => (Returned 0, w)
    end.

(** Sends one statement to SQLite: logs it and raises when the fault plan
    says so. *)
Definition sql_send (c : sql_cmd) : M unit := fun w =>
  let d := database w in
  let d' := {| products := products d; pending := pending d; g_db := g_db d;
               sql_log := (sql_log d ++ [c])%list;
               sqlite_fault := sqlite_fault d |} in
  if sqlite_fault d (length (sql_log d))
  then (Raised SqliteError, set_database d' w)
  else (Returned tt, set_database d' w).

Definition set_pending (p : option (Z * Row)) (w : World) : World :=
  let d := database w in
  set_database {| products := products d; pending := p; g_db := g_db d;
                  sql_log := sql_log d; sqlite_fault := sqlite_fault d |} w.

Definition set_g_db (b : bool) (w : World) : World :=
  let d := database w in
  set_database {| products := products d; pending := pending d; g_db := b;
                  sql_log := sql_log d; sqlite_fault := sqlite_fault d |} w.

Definition set_products (f : gmap Z Row -> gmap Z Row) (w : World) : World :=
  let d := database w in
  set_database {| products := f (products d); pending := pending d;
                  g_db := g_db d; sql_log := sql_log d;
                  sqlite_fault := sqlite_fault d |} w.

(** The row key a bound [id] parameter denotes.  Ids reach the engine as
    Python ints (the route converter, [int(product_data['id'])], the rows
    of the table); SQLite's coercion of numeric text and integral floats
    to a key is not played out. *)
Definition sql_key (id : json) : option Z :=
  match id with
  | JInt n => Some n
  | JBool b => Some (if b then 1 else 0)
  | _ => None
  end.

(** Values whose type [sqlite3] can bind to a [?]. *)
Definition bindable (j : json) : bool :=
  match j with
  | JList _ | JDict _ => false
  | _ => true
  end.

(** An SQLite INTEGER is a signed 64-bit value. *)
Definition int64 (n : Z) : bool := (- 2 ^ 63 <=? n) && (n <? 2 ^ 63).

(** Binding one value to a [?] of an UPDATE or INSERT: a list or a dict
    is refused with an [sqlite3.Error], a Python int beyond 64 bits with
    [OverflowError]. *)
Definition bind_parameter (j : json) : outcome unit :=
  match j with
  | JList _ | JDict _ => Raised SqliteError
  | JInt n => if int64 n then Returned tt else Raised OverflowError
  | _ => Returned tt
  end.

(** The parameters are bound from left to right and the first refusal
    is the one raised. *)
Fixpoint bind_parameters (parameters : list json) : outcome unit :=
  match parameters with
  | [] => Returned tt
  | j :: rest =>
      match bind_parameter j with
      | Returned _ => bind_parameters rest
      | Raised e => Raised e
      end
  end.
Arguments bind_parameters : simpl never.

(** The declared types of the columns [name TEXT], [price REAL] and
    [description TEXT]. *)
Inductive affinity := TEXT | REAL.

(** What a column of the given affinity holds for a bound value, as a
    later SELECT hands it back.  [None] is NULL.  A TEXT column turns an
    integer into its decimal text; a REAL column turns an integer into
    the float of the same value ([30] reads back as [30.0]; the form
    given is right up to 2^53, where every integer is a float), keeps a
    float except that NaN is stored as NULL and [-0.0] reads back as
    [0.0].  A [bool] is bound as the integer 0 or 1.  What SQLite makes
    of a float in a TEXT column and of text in a REAL column (its own
    rendering of the float, the number if the text spells one) is not
    played out: the value is kept as bound. *)
Definition column_value (a : affinity) (j : json) : json :=
  match a, j with
  | TEXT, JInt n => JStr (pretty n)
  | TEXT, JBool b => JStr (if b then "1" else "0")
  | REAL, JInt n => JFloat (pretty n +:+ ".0")
  | REAL, JBool b => JFloat (if b then "1.0" else "0.0")
  | REAL, JFloat r =>
      if String.eqb r "nan" then JNull
      else if String.eqb r "-0.0" then JFloat "0.0"
      else JFloat r
  | _, _ => j
  end.
Arguments column_value : simpl never.

(** The row the table holds for the bound values [r]. *)
Definition stored_row (r : Row) : Row :=
  {| row_name := column_value TEXT (row_name r);
     row_price := column_value REAL (row_price r);
     row_description := column_value TEXT (row_description r) |}.
Arguments stored_row : simpl never.

(** [name TEXT NOT NULL, price REAL NOT NULL] *)
Definition not_null (r : Row) : bool :=
  negb (is_none (row_name r)) && negb (is_none (row_price r)).
Arguments not_null : simpl never.

(** [sqlite3.connect(DB_NAME)] *)
Definition sqlite3_connect : M unit :=
  sql_send CONNECT ;; modify (set_pending None).

(** [cursor.execute('SELECT ... WHERE id = ?', (product_id,)); cursor.fetchone()].
    The [OverflowError] of an id beyond 64 bits is not played out here:
    no row has such a key, and the statement answers accordingly. *)
Definition sql_select (product_id : json) : M (option Row) :=
  sql_send (SELECT product_id) ;;
  if bindable product_id
  then fun w => (Returned (k ← sql_key product_id; products (database w) !! k), w)
  else raise SqliteError.

(** [cursor.execute('UPDATE products SET name = ?, price = ?, description = ?
    WHERE id = ?', (name, price, description, product_id))]: changes the
    row of the id when there is one, subject to the NOT NULL constraints,
    and nothing when there is none.  The change stays pending until the
    commit. *)
Definition sql_update (product_id : json) (r : Row) : M unit :=
  sql_send (UPDATE product_id r) ;;
  match bind_parameters [row_name r; row_price r; row_description r; product_id] with
  | Raised e => raise e
  | Returned _ =>
      fun w =>
        match sql_key product_id with
        | Some k =>
            match products (database w) !! k with
            | Some _ =>
                if not_null (stored_row r)
                then (Returned tt, set_pending (Some (k, stored_row r)) w)
                else (Raised SqliteError, w)      (* NOT NULL constraint failed *)
            | None => (Returned tt, w)
            end
        | None => (Returned tt, w)
        end
  end.

(** [cursor.execute('INSERT INTO products (id, name, price, description)
    VALUES (?, ?, ?, ?)', (product_id, name, price, description))]: adds the
    row, unless the table has a row of that id already or a NOT NULL
    constraint fails.  An id that is no integer is refused as a datatype
    mismatch (the coercions of [sql_key] apart; an id of [None], for
    which SQLite would pick a key, is refused by both callers before). *)
Definition sql_insert (product_id : json) (r : Row) : M unit :=
  sql_send (INSERT product_id r) ;;
  match bind_parameters [product_id; row_name r; row_price r; row_description r] with
  | Raised e => raise e
  | Returned _ =>
      fun w =>
        match sql_key product_id with
        | Some k =>
            match products (database w) !! k with
            | Some _ => (Raised SqliteError, w)   (* UNIQUE constraint failed *)
            | None =>
                if not_null (stored_row r)
                then (Returned tt, set_pending (Some (k, stored_row r)) w)
                else (Raised SqliteError, w)      (* NOT NULL constraint failed *)
            end
        | None => (Raised SqliteError, w)         (* datatype mismatch *)
        end
  end.

(** [conn.commit()] *)
Definition sql_commit : M unit :=
  sql_send COMMIT ;;
  fun w =>
    match pending (database w) with
    | Some (k, r) => (Returned tt, set_pending None (set_products (fun m => <[k := r]> m) w))
    | None => (Returned tt, w)
    end.

(** [conn.rollback()] *)
Definition sql_rollback : M unit :=
  sql_send ROLLBACK ;; modify (set_pending None).

(** [conn.close()]: an uncommitted transaction is discarded. *)
Definition sql_close : M unit := modify (set_pending None).

(** [get_db()]: the connection of the application context, opened on
    first use. *)
Definition get_db : M unit := fun w =>
  if g_db (database w) then (Returned tt, w)
  else try_except (sqlite3_connect ;; modify (set_g_db true))
                  (fun e => raise e) w.

(** [queue.Queue]: [put], [get(block=True, timeout=1)], [task_done], [empty]. *)
Definition queue_put (item : dict) : M unit := fun w =>
  let q := write_back_queue w in
  (Returned tt,
   set_queue {| queue_items := (queue_items q ++ [item])%list;
                unfinished_tasks := unfinished_tasks q + 1 |} w).

Definition queue_get : M dict := fun w =>
  let q := write_back_queue w in
  match queue_items q with
  | [] => (Raised QueueEmpty, w)
  | item :: rest =>
      (Returned item,
       set_queue {| queue_items := rest; unfinished_tasks := unfinished_tasks q |} w)
  end.

Definition queue_task_done : M unit := fun w =>
  let q := write_back_queue w in
  let unfinished := unfinished_tasks q - 1 in
  if unfinished <? 0 then (Raised ValueError, w)
  else (Returned tt,
        set_queue {| queue_items := queue_items q; unfinished_tasks := unfinished |} w).

Definition queue_empty (w : World) : bool :=
  match queue_items (write_back_queue w) with
  | [] => true
  | _ => false
  end.

(** [time.monotonic()] *)
Definition time_monotonic : M Q := fun w =>
  (Returned (clock w (clock_reads w)), set_clock_reads (S (clock_reads w)) w).

(** ** Metrics, as the module-level [metrics] object *)

Definition record_cache_hit : M unit := modify (set_metrics Metrics_record_cache_hit).
Definition record_cache_miss : M unit := modify (set_metrics Metrics_record_cache_miss).
Definition record_db_read : M unit := modify (set_metrics Metrics_record_db_read).
Definition record_db_write : M unit := modify (set_metrics Metrics_record_db_write).
Definition record_time (strategy operation : string) (elapsed_time : Q) : M unit :=
  modify (set_metrics (Metrics_record_time strategy operation elapsed_time)).

(** The [@timer(strategy, operation)] decorator: no sample is recorded
    when the wrapped function raises. *)
Definition timer {A} (strategy operation : string) (func : M A) : M A :=
  start_time <- time_monotonic ;;
  result <- func ;;
  end_time <- time_monotonic ;;
  record_time strategy operation (end_time - start_time)%Q ;;
  ret result.

(** ** Store and cache access *)

Definition row_to_dict (k : Z) (r : Row) : dict :=
  [("id", JInt k); ("name", row_name r); ("price", row_price r);
   ("description", row_description r)].

(** [get_from_db(product_id)] *)
Definition get_from_db (product_id : json) : M (option dict) :=
  record_db_read ;;
  try_except
    (get_db ;;
     product <- sql_select product_id ;;
     match product, sql_key product_id with
     | Some r, Some k => ret (Some (row_to_dict k r))
     | _, _ => ret None
     end)
    (fun e =>
       match e with
       | SqliteError => ret None
       | _ => raise e
       end).

(** [save_to_db(product_data)] *)
Definition save_to_db (product_data : dict) : M dict :=
  record_db_write ;;
  let product_id := dict_get "id" product_data in
  let name := dict_get "name" product_data in
  let price := dict_get "price" product_data in
  let description := dict_get "description" product_data in
  if is_none product_id || is_none name || is_none price
  then raise ValueError
  else
    get_db ;;
    try_except
      (exists_ <- sql_select product_id ;;
       let r := {| row_name := name; row_price := price;
                   row_description := description |} in
       (match exists_ with
        | Some _ => sql_update product_id r
        | None => sql_insert product_id r
        end) ;;
       sql_commit ;;
       ret product_data)
      (fun e =>
         match e with
         | SqliteError => sql_rollback ;; raise e
         | _ => raise e
         end).

Definition cache_key (product_id : json) : string :=
  "product:" +:+ py_str product_id.

(** [invalidate_cache(product_id)] *)
Definition invalidate_cache (product_id : json) : M bool :=
  let cache_key := cache_key product_id in
  try_except
    (deleted_count <- redis_delete cache_key ;;
     ret (0 <? deleted_count))
    (fun e =>
       match e with
       | RedisError => ret false
       | _ => raise e
       end).

(** [get_from_cache(product_id)]; the result [JNull] is [None]. *)
Definition get_from_cache (product_id : json) : M json :=
  let cache_key := cache_key product_id in
  try_except
    (cached_data <- redis_get cache_key ;;
     match cached_data with
     | Some text =>
         if payload_truthy text
         then record_cache_hit ;; (fun w => (json_loads text, w))
         else record_cache_miss ;; ret JNull
     | None => record_cache_miss ;; ret JNull
     end)
    (fun e =>
       match e with
       | RedisError => record_cache_miss ;; ret JNull
       | JSONDecodeError =>
           invalidate_cache product_id ;; record_cache_miss ;; ret JNull
       | _ => raise e
       end).

(** [save_to_cache(product_data, expiry)] *)
Definition save_to_cache_expiry (product_data : dict) (expiry : Z) : M (option dict) :=
  if negb (truthy (JDict product_data)) || negb (dict_contains "id" product_data)
  then ret None
  else
    let product_id := dict_get "id" product_data in
    let cache_key := cache_key product_id in
    try_except
      (redis_setex cache_key expiry (json_dumps product_data) ;;
       ret (Some product_data))
      (fun e =>
         match e with
         | RedisError => ret None
         | _ => raise e
         end).

(** [save_to_cache(product_data)] with the default [expiry=3600]. *)
Definition save_to_cache (product_data : dict) : M (option dict) :=
  save_to_cache_expiry product_data 3600.

(** Truth value of an optional dict ([None] or a dict). *)
Definition truthy_opt (o : option dict) : bool :=
  match o with
  | Some d => truthy (JDict d)
  | None => false
  end.

Definition opt_json (o : option dict) : json :=
  match o with
  | Some d => JDict d
  | None => JNull
  end.

(** ** The strategies *)

(** Body shared by the two textually identical lookaside reads.  The
    [try] around the store read is split at the assignment to [product]:
    an exception before it leaves the cached value bound, one after it
    leaves the store's. *)
Definition lookaside_read (product_id : json) : M json :=
  product <- get_from_cache product_id ;;
  if truthy product then ret product
  else
    try_except
      (db_product <- get_from_db product_id ;;
       try_except
         ((if truthy_opt db_product
           then match db_product with
                | Some d => save_to_cache d ;; ret tt
                | None => ret tt
                end
           else ret tt) ;;
          ret (opt_json db_product))
         (fun e => ret (opt_json db_product)))
      (fun e => ret product).

Definition cache_aside_read (product_id : json) : M json :=
  timer "cache_aside" "read" (lookaside_read product_id).

(** Body shared by the cache-aside and read-through writes. *)
Definition invalidating_write (product_data : dict) : M dict :=
  try_except
    (save_to_db product_data ;;
     invalidated <- invalidate_cache (dict_get "id" product_data) ;;
     ret tt)
    (fun e => raise e) ;;
  ret product_data.

Definition cache_aside_write (product_data : dict) : M dict :=
  timer "cache_aside" "write" (invalidating_write product_data).

Definition read_through_read (product_id : json) : M json :=
  timer "read_through" "read" (lookaside_read product_id).

Definition read_through_write (product_data : dict) : M dict :=
  timer "read_through" "write" (invalidating_write product_data).

Definition write_through_read (product_id : json) : M json :=
  timer "write_through" "read" (cache_aside_read product_id).

Definition write_through_write (product_data : dict) : M dict :=
  timer "write_through" "write"
    (try_except
       (save_to_db product_data ;;
        saved_cache <- save_to_cache product_data ;;
        if truthy_opt saved_cache
        then ret tt       (* logs; sets the unread local [cache_updated] *)
        else ret tt)      (* logs a warning *)
       (fun e => raise e) ;;
     ret product_data).

Definition write_around_read (product_id : json) : M json :=
  timer "write_around" "read" (cache_aside_read product_id).

Definition write_around_write (product_data : dict) : M dict :=
  timer "write_around" "write"
    (try_except
       (save_to_db product_data ;; ret tt)
       (fun e => raise e) ;;
     ret product_data).

Definition write_back_read (product_id : json) : M json :=
  timer "write_back" "read" (cache_aside_read product_id).

Definition write_back_write (product_data : dict) : M dict :=
  timer "write_back" "write"
    (saved_cache <- save_to_cache product_data ;;
     (if truthy_opt saved_cache
      then try_except
             (queue_put product_data)
             (fun e => invalidate_cache (dict_get "id" product_data) ;; raise e)
      else raise IOError) ;;
     ret product_data).

(** ** The write-back pipeline *)

(** What the worker does with one dequeued item: the inner
    [try / except sqlite3.Error / except Exception / finally].  The
    [continue] of the validation branch leaves the [try] body at once, so
    the [finally] clause marks the task done a second time.  The two
    handlers log and close the connection; when the log line itself
    fails because [product_id] is not bound yet (the connection failed on
    the very first item), the error reaches the outer handler of the
    loop after the [finally] clause, with the same effect on the state. *)
Definition persist_item (product_data : dict) : M unit :=
  try_finally
    (try_except
       (sqlite3_connect ;;
        record_db_write ;;
        let product_id := dict_get "id" product_data in
        let name := dict_get "name" product_data in
        let price := dict_get "price" product_data in
        let description := dict_get "description" product_data in
        if is_none product_id || is_none name || is_none price
        then queue_task_done
        else
          exists_ <- sql_select product_id ;;
          let r := {| row_name := name; row_price := price;
                      row_description := description |} in
          (match exists_ with
           | Some _ => sql_update product_id r
           | None => sql_insert product_id r
           end) ;;
          sql_commit ;;
          sql_close)
       (fun e =>
          match e with
          | SqliteError => sql_close
          | _ => sql_close
          end))
    queue_task_done.

(** One pass through the body of the worker's [while] loop.  Both outer
    handlers only log (and sleep) before the loop goes on. *)
Definition worker_iteration : M unit :=
  try_except
    (product_data <- queue_get ;;
     persist_item product_data)
    (fun e =>
       match e with
       | QueueEmpty => ret tt
       | _ => ret tt
       end).

Definition loop_condition (w : World) : bool :=
  write_back_running w || negb (queue_empty w).

(** The thread function returning ends the thread. *)
Definition thread_exit (w : World) : World :=
  set_thread ((fun _ => false) <$> write_back_thread w) w.

(** [process_write_back_queue()], run for at most [fuel] iterations of
    its loop; the result tells whether the function returned. *)
Fixpoint process_write_back_queue (fuel : nat) : M bool := fun w =>
  if loop_condition w
  then match fuel with
       | O => (Returned false, w)
       | S fuel' => (worker_iteration ;; process_write_back_queue fuel') w
       end
  else (Returned true, thread_exit w).

Definition thread_alive (w : World) : bool :=
  match write_back_thread w with
  | Some alive => alive
  | None => false
  end.

(** [start_write_back_thread()] *)
Definition start_write_back_thread : M unit := fun w =>
  if negb (write_back_running w) && negb (thread_alive w)
  then (Returned tt, set_thread (Some true) (set_running true w))
  else if write_back_running w then (Returned tt, w)
  else if thread_alive w then (Returned tt, set_running true w)
  else (Returned tt, w).

(** [write_back_queue.join()] as seen from the caller: the worker, if it
    is alive, runs until no task is unfinished.  The result is [false]
    when the call is still blocked after [fuel] worker iterations, or
    blocked for good because the worker is gone. *)
Fixpoint queue_join (fuel : nat) : M bool := fun w =>
  if unfinished_tasks (write_back_queue w) =? 0 then (Returned true, w)
  else if negb (thread_alive w) then (Returned false, w)
  else if negb (loop_condition w) then (Returned false, thread_exit w)
  else match fuel with
       | O => (Returned false, w)
       | S fuel' => (worker_iteration ;; queue_join fuel') w
       end.

(** [stop_write_back_thread()].  [join_fuel] bounds the blocking
    [queue.join()] (the result is [false] if it has not returned by
    then); [patience] is the number of loop iterations the worker gets
    within the ten seconds of [thread.join(timeout=10.0)]. *)
Definition stop_write_back_thread (join_fuel patience : nat) : M bool := fun w =>
  if negb (write_back_running w) && negb (thread_alive w)
  then (Returned true, w)
  else if write_back_running w
  then
    (modify (set_running false) ;;
     joined <- queue_join join_fuel ;;
     if joined
     then
       (fun w1 =>
          if thread_alive w1
          then (process_write_back_queue patience ;; ret tt) w1
          else (Returned tt, w1)) ;;
       modify (set_thread None) ;;
       ret true
     else ret false) w
  else (Returned true, w).

(** ** Concrete worlds, for the examples *)

Definition no_fault : nat -> bool := fun _ => false.

(** Only command number [n] fails. *)
Definition fault_at (n : nat) : nat -> bool := fun k => Nat.eqb k n.

(** A process that has just started: metrics reset, empty cache, empty
    table, empty queue, no worker; the clock reads 0, 1, 2, ... *)
Definition fresh_world (redis_faults sqlite_faults : nat -> bool) : World :=
  {| metrics := Metrics_reset;
     redis_client := {| entries := ∅; redis_log := []; redis_fault := redis_faults |};
     database := {| products := ∅; pending := None; g_db := false; sql_log := [];
                    sqlite_fault := sqlite_faults |};
     write_back_queue := {| queue_items := []; unfinished_tasks := 0 |};
     write_back_running := false;
     write_back_thread := None;
     clock := fun n => inject_Z (Z.of_nat n);
     clock_reads := O |}.

Definition product (id : Z) (name : string) (price : Z) : dict :=
  [("id", JInt id); ("name", JStr name); ("price", JInt price)].

(** ** Vocabulary of the properties *)

(** Every per-strategy entry has its ["read"] and ["write"] lists, which
    is what [get_stats] indexes. *)
Definition times_well_formed (m : Metrics) : Prop :=
  map_Forall (fun _ (ops : gmap string (list Q)) =>
                is_Some (ops !! "read") /\ is_Some (ops !! "write"))
             (operation_times m).

(** One hit and one miss recorded on a fresh collector. *)
Definition one_hit_one_miss : Metrics :=
  Metrics_record_cache_miss (Metrics_record_cache_hit Metrics_reset).

(** The world in which a decorated function body starts: the decorator
    has read the clock once. *)
Definition tick (w : World) : World := set_clock_reads (S (clock_reads w)) w.

(** [stable R m]: whatever [m] does, the final world is related by [R] to
    the initial one.  For a preorder [R] the property passes through the
    control structure of the code. *)
Definition stable {A} (R : relation World) (m : M A) : Prop :=
  forall w, R w (snd (m w)).

(** The part of the world selected by [proj] is left as it was. *)
Definition same {B} (proj : World -> B) : relation World :=
  fun w w' => proj w' = proj w.

(** From [w] to [w'] Redis received only commands on [key], and no other
    key of the key space changed. *)
Definition touches_only (key : string) (w w' : World) : Prop :=
  (exists cmds,
      redis_log (redis_client w') = (redis_log (redis_client w) ++ cmds)%list /\
      Forall (fun c => cmd_key c = key) cmds) /\
  forall k, k <> key ->
            entries (redis_client w') !! k = entries (redis_client w) !! k.

(** The values [save_to_db] and the worker bind for a record. *)
Definition bound_row (product_data : dict) : Row :=
  {| row_name := dict_get "name" product_data;
     row_price := dict_get "price" product_data;
     row_description := dict_get "description" product_data |}.

(** The row the table holds once the record is written. *)
Definition row_of (product_data : dict) : Row := stored_row (bound_row product_data).

(** The values [column_value] accounts for in full. *)
Definition typed (a : affinity) (j : json) : bool :=
  match a, j with
  | _, JNull | _, JBool _ | TEXT, JStr _ | REAL, JFloat _ => true
  | TEXT, JInt n => int64 n
  | REAL, JInt n => (- 2 ^ 53 <=? n) && (n <=? 2 ^ 53)
  | _, _ => false
  end.

(** A record the store accepts under key [k]: the id is an integer
    within 64 bits, name and price are present, the name and the
    description are text (or numbers SQLite turns into text), the price
    is a number other than NaN. *)
Definition storable (product_data : dict) (k : Z) : Prop :=
  sql_key (dict_get "id" product_data) = Some k /\
  int64 k = true /\
  is_none (dict_get "name" product_data) = false /\
  is_none (dict_get "price" product_data) = false /\
  typed TEXT (dict_get "name" product_data) = true /\
  typed REAL (dict_get "price" product_data) = true /\
  typed TEXT (dict_get "description" product_data) = true /\
  dict_get "price" product_data <> JFloat "nan".

(** No statement sent to SQLite fails. *)
Definition store_reliable (w : World) : Prop :=
  forall n, sqlite_fault (database w) n = false.

(** SQLite refuses the first statement it is sent. *)
Definition store_down : World := fresh_world no_fault (fault_at 0).

(** Redis refuses the first command it is sent. *)
Definition cache_down : World := fresh_world (fault_at 0) no_fault.

(** A cache in which the key of record 1 holds the document [{}]. *)
Definition empty_document_cached : World :=
  set_entries (fun m => <["product:1" := (Encoded (JDict []), 3600)]> m)
              (fresh_world no_fault no_fault).

(** What serving a read from the cache does to the world: one more hit
    counted, no miss, no store read or write counted, and SQLite exactly
    as it was (no statement sent, no row changed). *)
Definition hit_effect (w w' : World) : Prop :=
  cache_hits (metrics w') = cache_hits (metrics w) + 1 /\
  cache_misses (metrics w') = cache_misses (metrics w) /\
  db_reads (metrics w') = db_reads (metrics w) /\
  db_writes (metrics w') = db_writes (metrics w) /\
  database w' = database w.

(** [f] started in [w], whatever the clock has been read so far, returns
    [v] with the effect of a hit. *)
Definition serves_hit (w : World) (v : json) (f : M json) : Prop :=
  forall n, exists w', f (set_clock_reads n w) = (Returned v, w') /\ hit_effect w w'.

(** The five read entry points, by strategy name. *)
Definition read_strategies : list (string * (json -> M json)) :=
  [("cache_aside", cache_aside_read); ("read_through", read_through_read);
   ("write_through", write_through_read); ("write_around", write_around_read);
   ("write_back", write_back_read)].

(** The five write entry points, by strategy name. *)
Definition write_strategies : list (string * (dict -> M dict)) :=
  [("cache_aside", cache_aside_write); ("read_through", read_through_write);
   ("write_through", write_through_write); ("write_around", write_around_write);
   ("write_back", write_back_write)].

(** The store read of [get_from_db] up to [fetchone()]: obtaining the
    connection and running the SELECT. *)
Definition store_read (product_id : json) : M (option Row) :=
  get_db ;; sql_select product_id.

(** The world after a write-through of record 1 into a fresh process. *)
Definition after_write_through : World :=
  exec (write_through_write (product 1 "A" 10)) (fresh_world no_fault no_fault).

(** The row an item of the write-back queue contributes when the worker
    processes it without a fault of SQLite: none if it fails the worker's
    validation, if a value cannot be bound, if the id is no integer or
    if a NOT NULL constraint fails. *)
Definition store_entry (product_data : dict) : option (Z * Row) :=
  if is_none (dict_get "id" product_data) || is_none (dict_get "name" product_data)
     || is_none (dict_get "price" product_data)
  then None
  else match bind_parameters [dict_get "id" product_data; dict_get "name" product_data;
                              dict_get "price" product_data;
                              dict_get "description" product_data] with
       | Returned _ =>
           k ← sql_key (dict_get "id" product_data);
           if not_null (row_of product_data) then Some (k, row_of product_data) else None
       | Raised _ => None
       end.

Definition upsert (table : gmap Z Row) (product_data : dict) : gmap Z Row :=
  match store_entry product_data with
  | Some (k, r) => <[k := r]> table
  | None => table
  end.

(** The table after the items have been processed in queue order. *)
Definition persisted (items : list dict) (table : gmap Z Row) : gmap Z Row :=
  foldl upsert table items.

(** A worker about to process one record while SQLite refuses the
    connection. *)
Definition worker_store_down : World :=
  exec (queue_put (product 1 "A" 10))
       (exec start_write_back_thread store_down).

(** A started pipeline right after a write-back write of record 2, with
    the given SQLite fault plan. *)
Definition after_write_back (sqlite_faults : nat -> bool) : World :=
  exec (write_back_write (product 2 "B" 20))
       (exec start_write_back_thread (fresh_world no_fault sqlite_faults)).

(** A record whose price is NaN, as the JSON body
    [{"id": 5, "name": "E", "price": NaN}] gives it, and a started
    pipeline right after a write-back write of it, SQLite being sound. *)
Definition nan_price_record : dict :=
  [("id", JInt 5); ("name", JStr "E"); ("price", JFloat "nan")].

Definition after_write_back_nan : World :=
  exec (write_back_write nan_price_record)
       (exec start_write_back_thread (fresh_world no_fault no_fault)).

(** The world after the worker has gone [n] times through its loop body. *)
Fixpoint worker_runs (n : nat) (w : World) : World :=
  match n with
  | O => w
  | S n' => worker_runs n' (exec worker_iteration w)
  end.

(** None of the four statements of the persistence attempt that starts
    in [w] (CONNECT, SELECT, UPDATE or INSERT, COMMIT) fails. *)
Definition attempt_unfailed (w : World) : Prop :=
  forall i, (i < 4)%nat ->
            sqlite_fault (database w) (length (sql_log (database w)) + i) = false.

(** No item of the list would be stored under key [k]. *)
Definition no_write_for (k : Z) (items : list dict) : Prop :=
  Forall (fun q => forall r, store_entry q <> Some (k, r)) items.

(** Every item is a storable record or one the worker drops. *)
Definition storable_or_dropped (items : list dict) : Prop :=
  Forall (fun q => store_entry q = None \/ exists k, storable q k) items.

(** What may happen between a write-back write of a record stored under
    key [k] and the stop of the pipeline without another record taking
    its place: the worker goes once through its loop, or a request
    performs a read, or a write of a record with another id, under any
    of the strategies. *)
Inductive pipeline_step (k : Z) : World -> World -> Prop :=
| worker_step w :
    pipeline_step k w (exec worker_iteration w)
| read_step name read product_id w :
    (name, read) ∈ read_strategies ->
    pipeline_step k w (exec (read product_id) w)
| write_step name write product_data n w :
    (name, write) ∈ write_strategies ->
    dict_get "id" product_data = JInt n -> n <> k ->
    pipeline_step k w (exec (write product_data) w).

(** The record [p] of key [k] is on its way to the store or in it: it
    is queued with no item for the same key behind it, or its row is in
    the table and no queued item will replace it. *)
Definition in_flight (p : dict) (k : Z) (w : World) : Prop :=
  (exists before after,
      queue_items (write_back_queue w) = (before ++ p :: after)%list /\
      no_write_for k after) \/
  (products (database w) !! k = Some (row_of p) /\
   no_write_for k (queue_items (write_back_queue w))).

(** The task counter of the queue never exceeds the number of queued
    items between two worker iterations ([put] adds one to both, an
    iteration takes one item and marks at least one task done). *)
Definition queue_consistent (w : World) : Prop :=
  0 <= unfinished_tasks (write_back_queue w)
    <= Z.of_nat (length (queue_items (write_back_queue w))).

(** ** The HTTP views over the engine *)

(** What a view returns: the JSON body and the status code. *)
Record response := {
  body : json;
  status : Z
}.

(** [jsonify({'error': msg})] *)
Definition error_body (msg : string) : json := JDict [("error", JStr msg)].

(** [strategies[strategy]] / [strategy in strategies] on a dict literal. *)
Fixpoint strategy_lookup {A} (strategy : string) (strategies : list (string * A))
    : option A :=
  match strategies with
  | [] => None
  | (name, f) :: rest =>
      if String.eqb strategy name then Some f else strategy_lookup strategy rest
  end.

(** [get_product(product_id)] for the route
    [/api/products/<int:product_id>]; [strategy_arg] is the [strategy]
    query argument, if given. *)
Definition get_product (product_id : Z) (strategy_arg : option string) : M response :=
  let strategy := default "cache_aside" strategy_arg in
  let strategies := read_strategies in
  match strategy_lookup strategy strategies with
  | None => ret {| body := error_body "Invalid caching strategy"; status := 400 |}
  | Some read =>
      try_except
        (product <- read (JInt product_id) ;;
         if truthy product
         then ret {| body := product; status := 200 |}
         else ret {| body := error_body "Product not found"; status := 404 |})
        (fun e =>
           ret {| body := error_body "An internal server error occurred";
                  status := 500 |})
  end.

(** ** Further vocabulary *)

(** [m] raises nothing but exceptions in [P]. *)
Definition raises_only {A} (P : exn -> Prop) (m : M A) : Prop :=
  forall w e, fst (m w) = Raised e -> P e.

Definition never_raises {A} (m : M A) : Prop := raises_only (fun _ => False) m.

(** [m] neither reads the clock nor depends on how often it was read. *)
Definition clock_blind {A} (m : M A) : Prop :=
  forall n w, m (set_clock_reads n w) = (fst (m w), set_clock_reads n (snd (m w))).

(** The recordings a collector receives. *)
Inductive recording :=
| RecHit
| RecMiss
| RecDbRead
| RecDbWrite
| RecTime (strategy operation : string) (elapsed_time : Q).

Definition record (self : Metrics) (r : recording) : Metrics :=
  match r with
  | RecHit => Metrics_record_cache_hit self
  | RecMiss => Metrics_record_cache_miss self
  | RecDbRead => Metrics_record_db_read self
  | RecDbWrite => Metrics_record_db_write self
  | RecTime strategy operation t => Metrics_record_time strategy operation t self
  end.

(** The collector after [reset()] and the given recordings, in order. *)
Definition recorded (rs : list recording) : Metrics := foldl record Metrics_reset rs.

Definition is_hit (r : recording) : bool := match r with RecHit => true | _ => false end.
Definition is_miss (r : recording) : bool := match r with RecMiss => true | _ => false end.
Definition is_db_read (r : recording) : bool := match r with RecDbRead => true | _ => false end.
Definition is_db_write (r : recording) : bool := match r with RecDbWrite => true | _ => false end.

(** The latency samples kept for a strategy and operation ([[]] when
    there is no such entry). *)
Definition samples (strategy operation : string) (m : Metrics) : list Q :=
  default [] (operation_times m !! strategy ≫= fun ops => ops !! operation).

(** No command sent to Redis fails. *)
Definition cache_reliable (w : World) : Prop :=
  forall n, redis_fault (redis_client w) n = false.

(** Every command sent to Redis fails. *)
Definition cache_unreachable (w : World) : Prop :=
  forall n, redis_fault (redis_client w) n = true.

(** Everything of the world but the clock and the latency samples: the
    four counters, Redis, SQLite, the queue and the pipeline flags. *)
Definition observable (w : World) :=
  (cache_hits (metrics w), cache_misses (metrics w), db_reads (metrics w),
   db_writes (metrics w), redis_client w, database w, write_back_queue w,
   write_back_running w, write_back_thread w).

(** The reads that delegate to the decorated [cache_aside_read]. *)
Definition delegating_reads : list (string * (json -> M json)) :=
  [("write_through", write_through_read); ("write_around", write_around_read);
   ("write_back", write_back_read)].

(** The cached text under the key of [product_id], if any. *)
Definition cached (product_id : json) (w : World) : option payload :=
  fst <$> entries (redis_client w) !! ("product:" +:+ py_str product_id).

(** The next command sent to Redis goes through. *)
Definition next_redis_ok (w : World) : Prop :=
  redis_fault (redis_client w) (length (redis_log (redis_client w))) = false.

(** [m] and [m'] return the same and leave the same observable world,
    however often the clock was read before. *)
Definition same_read (m m' : M json) : Prop :=
  forall n w, fst (m (set_clock_reads n w)) = fst (m' w) /\
              observable (snd (m (set_clock_reads n w))) = observable (snd (m' w)).

(** ** More concrete worlds, for the examples *)

(** Redis refuses every command; the table holds record 3. *)
Definition cache_outage_world : World :=
  exec (write_around_write (product 3 "C" 30)) (fresh_world (fun _ => true) no_fault).

(** Record 1 rewritten with a new name and price. *)
Definition product_1_updated : dict := product 1 "A2" 11.

(** A record whose name is [None] ahead of record 2, in a started
    pipeline. *)
Definition queue_with_invalid_item : World :=
  exec (write_back_write (product 2 "B" 20))
       (exec (write_back_write [("id", JInt 7); ("name", JNull); ("price", JInt 1)])
             (exec start_write_back_thread (fresh_world no_fault no_fault))).
(** * Properties *)

(** ** Reasoning about effects *)

Lemma bind_returned {A B} (m : M A) (k : A -> M B) w a w' :
  m w = (Returned a, w') -> bind m k w = k a w'.
Proof. unfold bind. by intros ->. Qed.

Lemma bind_raised {A B} (m : M A) (k : A -> M B) w e w' :
  m w = (Raised e, w') -> bind m k w = (Raised e, w').
Proof. unfold bind. by intros ->. Qed.

Lemma try_except_returned {A} (m : M A) h w a w' :
  m w = (Returned a, w') -> try_except m h w = (Returned a, w').
Proof. unfold try_except. by intros ->. Qed.

Lemma try_except_raised {A} (m : M A) h w e w' :
  m w = (Raised e, w') -> try_except m h w = h e w'.
Proof. unfold try_except. by intros ->. Qed.

Lemma timer_raised {A} strategy operation (func : M A) w e w' :
  func (tick w) = (Raised e, w') ->
  timer strategy operation func w = (Raised e, w').
Proof.
  intros H. unfold timer, time_monotonic, bind. fold (tick w). by rewrite H.
Qed.

Lemma timer_returned {A} strategy operation (func : M A) w a w' :
  func (tick w) = (Returned a, w') ->
  timer strategy operation func w =
    (Returned a,
     set_metrics
       (Metrics_record_time strategy operation
          (clock w' (clock_reads w') - clock w (clock_reads w))%Q)
       (tick w')).
Proof.
  intros H. unfold timer, time_monotonic, bind. fold (tick w). by rewrite H.
Qed.

(** *** Frame properties *)

#[export] Instance same_preorder {B} (proj : World -> B) : PreOrder (same proj).
Proof.
  split.
  - by intros w.
  - intros w1 w2 w3 H12 H23. unfold same in *. congruence.
Qed.

Section Stable.
Context (R : relation World) `{!PreOrder R}.

Lemma stable_ret {A} (a : A) : stable R (ret a).
Proof. intros w. reflexivity. Qed.

Lemma stable_raise {A} e : stable R (@raise A e).
Proof. intros w. reflexivity. Qed.

Lemma stable_bind {A B} (m : M A) (k : A -> M B) :
  stable R m -> (forall a, stable R (k a)) -> stable R (bind m k).
Proof.
  intros Hm Hk w. unfold bind. specialize (Hm w).
  destruct (m w) as [[a|e] w']; simpl in *; [|done].
  etrans; [exact Hm | apply Hk].
Qed.

Lemma stable_try_except {A} (m : M A) h :
  stable R m -> (forall e, stable R (h e)) -> stable R (try_except m h).
Proof.
  intros Hm Hh w. unfold try_except. specialize (Hm w).
  destruct (m w) as [[a|e] w']; simpl in *; [done|].
  etrans; [exact Hm | apply Hh].
Qed.

Lemma stable_try_finally {A} (m : M A) fin :
  stable R m -> stable R fin -> stable R (try_finally m fin).
Proof.
  intros Hm Hf w. unfold try_finally. specialize (Hm w).
  destruct (m w) as [r w']. specialize (Hf w').
  destruct (fin w') as [[[]|e] w'']; simpl in *; by etrans.
Qed.

Lemma stable_modify f : (forall w, R w (f w)) -> stable R (modify f).
Proof. intros Hf w. apply Hf. Qed.

Lemma stable_timer {A} strategy operation (func : M A) :
  stable R time_monotonic ->
  (forall t, stable R (record_time strategy operation t)) ->
  stable R func -> stable R (timer strategy operation func).
Proof.
  intros Ht Hr Hf. unfold timer.
  apply stable_bind; [exact Ht | intros t0].
  apply stable_bind; [exact Hf | intros a].
  apply stable_bind; [exact Ht | intros t1].
  apply stable_bind; [apply Hr | intros _; apply stable_ret].
Qed.
End Stable.

Create HintDb stable.

(** Case analysis on a scrutinee of the goal that contains no further
    case analysis, so that the code is followed inside out. *)
Ltac case_split :=
  match goal with
  | |- context [match ?x with _ => _ end] =>
      lazymatch x with
      | context [match _ with _ => _ end] => fail
      | _ => destruct x eqn:?
      end
  end.

(** Frame facts of the primitives follow by running them. *)
Ltac run_primitive :=
  let w := fresh "w" in
  intros w; unfold same;
  unfold get_db;
  unfold redis_get, redis_setex, redis_delete, redis_send, set_entries,
    sqlite3_connect, sql_select, sql_update, sql_insert, sql_commit, sql_rollback, sql_close,
    sql_send, set_pending, set_g_db, set_products,
    queue_put, queue_get, queue_task_done, time_monotonic,
    record_cache_hit, record_cache_miss, record_db_read, record_db_write,
    record_time, json_loads,
    bind, ret, raise, try_except, try_finally, modify,
    set_metrics, set_redis, set_database, set_queue, set_running, set_thread,
    set_clock_reads;
  cbn; repeat (case_split; cbn); try reflexivity.

#[export] Hint Extern 10 (stable (same _) _) => solve [run_primitive] : stable.

Ltac stable_step :=
  lazymatch goal with
  | |- stable _ (bind _ _) => apply stable_bind; [tc_solve | | intros ?]
  | |- stable _ (try_except _ _) => apply stable_try_except; [tc_solve | | intros ?]
  | |- stable _ (try_finally _ _) => apply stable_try_finally; [tc_solve | | ]
  | |- stable _ (timer _ _ _) => apply stable_timer; [tc_solve | | intros ? | ]
  | |- stable _ (ret _) => apply stable_ret; tc_solve
  | |- stable _ (raise _) => apply stable_raise; tc_solve
  | |- stable _ (if ?b then _ else _) => destruct b
  | |- stable _ (match ?x with _ => _ end) => destruct x
  | |- stable _ _ => first [ solve [auto with stable] | solve [run_primitive] ]
  end.

Ltac stable_auto := cbv zeta; repeat stable_step.

(** ** Metrics *)

Lemma empty_times_keys :
  is_Some (empty_times !! "read") /\ is_Some (empty_times !! "write").
Proof. split; vm_compute; eauto. Qed.

Lemma reset_well_formed : times_well_formed Metrics_reset.
Proof.
  unfold times_well_formed, Metrics_reset; simpl.
  repeat apply map_Forall_insert_2; auto using empty_times_keys.
  apply map_Forall_empty.
Qed.

Lemma record_time_well_formed strategy operation t m :
  times_well_formed m ->
  times_well_formed (Metrics_record_time strategy operation t m).
Proof.
  unfold times_well_formed, Metrics_record_time; simpl. intros Hwf.
  apply map_Forall_insert_2; [|exact Hwf].
  assert (Hops : is_Some (default empty_times (operation_times m !! strategy) !! "read")
                 /\ is_Some (default empty_times (operation_times m !! strategy) !! "write")).
  { destruct (operation_times m !! strategy) as [ops|] eqn:E; simpl.
    - exact (map_Forall_lookup_1 _ _ _ _ Hwf E).
    - exact empty_times_keys. }
  destruct Hops as [Hr Hw].
  split; rewrite lookup_insert; case_decide; eauto.
Qed.

Lemma strategy_averages_is_Some (ops : gmap string (list Q)) :
  is_Some (ops !! "read") -> is_Some (ops !! "write") ->
  is_Some (strategy_averages ops).
Proof.
  intros [r Hr] [w Hw]. unfold strategy_averages. rewrite Hr, Hw. eauto.
Qed.

Lemma get_stats_returns m :
  times_well_formed m ->
  exists s, get_stats m = Returned s.
Proof.
  intros Hwf. unfold get_stats.
  destruct (decide _) as [_|Hn]; [eauto|].
  exfalso. apply Hn. apply map_Forall_fmap.
  eapply map_Forall_impl; [exact Hwf|].
  intros k ops [Hr Hw]. simpl. by apply strategy_averages_is_Some.
Qed.

Lemma get_stats_hit_rate_value m s :
  get_stats m = Returned s ->
  hit_rate s =
    if 0 <? cache_hits m + cache_misses m
    then (inject_Z (cache_hits m) / inject_Z (cache_hits m + cache_misses m) * 100)%Q
    else 0%Q.
Proof.
  unfold get_stats. destruct (decide _); [|discriminate].
  intros [= <-]. reflexivity.
Qed.

(** C3, as the code has it: the snapshot reports the hit rate as a
    percentage, 100 * hits / (hits + misses), whenever a lookup has been
    counted, and 0 when hits + misses = 0; on a well-formed collector the
    snapshot is always produced. *)
Theorem get_stats_hit_rate_percentage (m : Metrics) :
  times_well_formed m ->
  exists s,
    get_stats m = Returned s /\
    (0 < cache_hits m + cache_misses m ->
     (hit_rate s == (100 * cache_hits m) # Z.to_pos (cache_hits m + cache_misses m))%Q) /\
    (cache_hits m + cache_misses m = 0 -> hit_rate s = 0%Q).
Proof.
  intros Hwf. destruct (get_stats_returns m Hwf) as [s Hs].
  exists s. split; [exact Hs|].
  rewrite (get_stats_hit_rate_value m s Hs). split.
  - intros Hpos. destruct (Z.ltb_spec 0 (cache_hits m + cache_misses m)); [|lia].
    set (t := cache_hits m + cache_misses m) in *.
    unfold Qeq, Qdiv, Qmult, Qinv, inject_Z. simpl.
    destruct t as [|p|p]; try lia. simpl. lia.
  - intros ->. reflexivity.
Qed.

Lemma get_stats_hit_rate_percentage_witness :
  exists s, get_stats one_hit_one_miss = Returned s /\ (hit_rate s == 50)%Q.
Proof.
  destruct (get_stats_hit_rate_percentage one_hit_one_miss) as (s & Hs & Hrate & _).
  - unfold times_well_formed. apply (bool_decide_unpack _). vm_compute. exact I.
  - exists s. split; [exact Hs|]. rewrite Hrate by (simpl; lia). reflexivity.
Defined.

(** C3 as stated fails: with one hit and one miss the snapshot reports
    50, not 1/2. *)
Lemma hit_rate_not_a_fraction :
  exists s, get_stats one_hit_one_miss = Returned s /\
            ~ (hit_rate s ==
               inject_Z (cache_hits one_hit_one_miss)
               / inject_Z (cache_hits one_hit_one_miss + cache_misses one_hit_one_miss))%Q.
Proof.
  destruct (get_stats_returns one_hit_one_miss) as [s Hs].
  - exact reset_well_formed.
  - exists s. split; [exact Hs|].
    rewrite (get_stats_hit_rate_value _ _ Hs). vm_compute. discriminate.
Qed.

(** ** What each function leaves alone *)

Lemma save_to_db_same_cache product_data :
  stable (same redis_client) (save_to_db product_data).
Proof. unfold save_to_db. stable_auto. Qed.

Lemma save_to_db_same_queue product_data :
  stable (same write_back_queue) (save_to_db product_data).
Proof. unfold save_to_db. stable_auto. Qed.

Lemma invalidate_cache_same_store product_id :
  stable (same database) (invalidate_cache product_id).
Proof. unfold invalidate_cache. stable_auto. Qed.

#[export] Hint Resolve invalidate_cache_same_store : stable.

Lemma get_from_cache_same_store product_id :
  stable (same database) (get_from_cache product_id).
Proof. unfold get_from_cache. stable_auto. Qed.

Lemma save_to_cache_same_store product_data :
  stable (same database) (save_to_cache product_data).
Proof. unfold save_to_cache, save_to_cache_expiry. stable_auto. Qed.

Lemma save_to_cache_same_queue product_data :
  stable (same write_back_queue) (save_to_cache product_data).
Proof. unfold save_to_cache, save_to_cache_expiry. stable_auto. Qed.

Lemma tick_redis_client w : redis_client (tick w) = redis_client w.
Proof. reflexivity. Qed.

Lemma tick_database w : database (tick w) = database w.
Proof. reflexivity. Qed.

(** ** Outcomes of [save_to_db] *)

Ltac destruct_world w :=
  destruct w as [mtr [ents rlog rfault] [prods pend gdb slog sfault]
                   [qitems unfin] running thread clk reads].

Ltac unfold_store :=
  unfold save_to_db, get_from_db;
  unfold get_db;
  unfold sqlite3_connect, sql_select, sql_update, sql_insert, sql_commit, sql_rollback,
    sql_close, sql_send, set_pending, set_g_db, set_products,
    record_db_read, record_db_write,
    bind, ret, raise, try_except, try_finally, modify,
    set_metrics, set_database.

Lemma save_to_db_returned product_data w r w1 :
  save_to_db product_data w = (Returned r, w1) ->
  r = product_data /\
  exists k, sql_key (dict_get "id" product_data) = Some k /\
            products (database w1) !! k = Some (row_of product_data).
Proof.
  destruct_world w. unfold_store. unfold row_of, bound_row. cbn.
  repeat (case_split; cbn); intros [= <- <-]; cbn in *; simplify_eq;
    (split; [reflexivity|]); eexists; (split; [reflexivity|]);
    apply lookup_insert_eq.
Qed.

Lemma bind_parameters_returned parameters :
  bind_parameters parameters = Returned tt <->
  Forall (fun j => bind_parameter j = Returned tt) parameters.
Proof.
  induction parameters as [|j rest IH]; unfold bind_parameters; fold bind_parameters.
  - split; [constructor | reflexivity].
  - destruct (bind_parameter j) as [[]|e] eqn:E.
    + rewrite IH. split.
      * intros H. by constructor.
      * intros H. by inversion H.
    + split; [discriminate|]. intros H. inversion H. congruence.
Qed.

Lemma typed_binds a j : typed a j = true -> bind_parameter j = Returned tt.
Proof.
  destruct a, j; cbn; try done.
  - intros ->. reflexivity.
  - intros H. assert (int64 n = true) as ->; [|reflexivity].
    unfold int64. lia.
Qed.

Lemma storable_id_binds product_data k :
  storable product_data k -> bind_parameter (dict_get "id" product_data) = Returned tt.
Proof.
  intros (Hk & Hr & _). destruct (dict_get "id" product_data); try done.
  cbn in Hk. injection Hk as ->. cbn. by rewrite Hr.
Qed.

(** A storable record passes the validation, is bound in full and meets
    the NOT NULL constraints. *)
Lemma storable_accepted product_data k :
  storable product_data k ->
  is_none (dict_get "id" product_data) = false /\
  bindable (dict_get "id" product_data) = true /\
  bind_parameters [dict_get "name" product_data; dict_get "price" product_data;
                   dict_get "description" product_data; dict_get "id" product_data]
    = Returned tt /\
  bind_parameters [dict_get "id" product_data; dict_get "name" product_data;
                   dict_get "price" product_data; dict_get "description" product_data]
    = Returned tt /\
  not_null (row_of product_data) = true.
Proof.
  intros Hst. pose proof (storable_id_binds _ _ Hst) as Bid.
  destruct Hst as (Hk & Hr & Hn & Hp & Tn & Tp & Td & Hnan).
  split; [by destruct (dict_get "id" product_data)|].
  split; [by destruct (dict_get "id" product_data)|].
  pose proof (typed_binds _ _ Tn). pose proof (typed_binds _ _ Tp).
  pose proof (typed_binds _ _ Td).
  split; [apply bind_parameters_returned; repeat constructor; assumption|].
  split; [apply bind_parameters_returned; repeat constructor; assumption|].
  unfold not_null, row_of, stored_row, bound_row, column_value. cbn.
  destruct (dict_get "name" product_data); try done;
    destruct (dict_get "price" product_data) as [| | |r| | |]; try done.
  all: cbn; destruct (String.eqb_spec r "nan") as [->|?]; [done|];
    by destruct (String.eqb r "-0.0").
Qed.

Lemma save_to_db_succeeds product_data k w :
  storable product_data k -> store_reliable w ->
  run (save_to_db product_data) w = Returned product_data.
Proof.
  intros Hst Hrel.
  destruct (storable_accepted _ _ Hst) as (Hid & Bid & Bu & Bi & Hnn).
  destruct Hst as (Hk & _ & Hn & Hp & _).
  unfold store_reliable in Hrel. unfold row_of, bound_row in Hnn.
  destruct_world w. unfold run. unfold_store. cbn in *.
  rewrite Hid, Hn, Hp, Hk, Bid. cbn.
  repeat (case_split; cbn in *; rewrite ?Hrel, ?Hnn, ?Bu, ?Bi in *; cbn in *; simplify_eq);
    try reflexivity; try discriminate.
Qed.

Lemma save_to_db_same_faults product_data :
  stable (same (fun w => sqlite_fault (database w))) (save_to_db product_data).
Proof. unfold save_to_db. stable_auto. Qed.

Lemma save_to_db_other_rows product_data k :
  sql_key (dict_get "id" product_data) <> Some k ->
  stable (same (fun w => products (database w) !! k)) (save_to_db product_data).
Proof.
  intros Hk w. unfold same. destruct_world w. unfold_store. cbn.
  repeat (case_split; cbn in *; simplify_eq); try reflexivity;
    rewrite lookup_insert_ne; congruence.
Qed.


(** ** Cache keys (C5) *)

#[export] Instance touches_only_preorder key : PreOrder (touches_only key).
Proof.
  split.
  - intros w. split; [|done].
    exists []. split; [by rewrite app_nil_r | constructor].
  - intros w1 w2 w3 [(c1 & L1 & F1) E1] [(c2 & L2 & F2) E2]. split.
    + exists (c1 ++ c2)%list. split.
      * by rewrite L2, L1, app_assoc.
      * by apply Forall_app.
    + intros k Hk. by rewrite E2, E1.
Qed.

Lemma touches_only_frame {A} key (m : M A) :
  stable (same redis_client) m -> stable (touches_only key) m.
Proof.
  intros H w. specialize (H w). unfold same in H.
  unfold touches_only. rewrite H. split; [|done].
  exists []. split; [by rewrite app_nil_r | constructor].
Qed.

Lemma touches_only_one key c w w' :
  redis_log (redis_client w') = (redis_log (redis_client w) ++ [c])%list ->
  cmd_key c = key ->
  (forall k, k <> key ->
             entries (redis_client w') !! k = entries (redis_client w) !! k) ->
  touches_only key w w'.
Proof.
  intros Hlog Hc Hent. split; [|exact Hent].
  exists [c]. split; [exact Hlog | by repeat constructor].
Qed.

Ltac run_redis :=
  let w := fresh "w" in
  intros w;
  unfold redis_get, redis_setex, redis_delete, redis_send, set_entries,
    bind, ret, modify, set_redis;
  cbn; repeat (case_split; cbn);
  (eapply touches_only_one; [cbn; reflexivity | reflexivity | cbn]);
  intros k Hk; try reflexivity.

Lemma redis_get_touches_only key : stable (touches_only key) (redis_get key).
Proof. run_redis. Qed.

Lemma redis_setex_touches_only key ttl v :
  stable (touches_only key) (redis_setex key ttl v).
Proof. run_redis. by rewrite lookup_insert_ne. Qed.

Lemma redis_delete_touches_only key : stable (touches_only key) (redis_delete key).
Proof. run_redis. by rewrite lookup_delete_ne. Qed.

#[export] Hint Resolve redis_get_touches_only redis_setex_touches_only
  redis_delete_touches_only : stable.
#[export] Hint Resolve touches_only_frame | 20 : stable.

Lemma invalidate_cache_touches_only product_id :
  stable (touches_only ("product:" +:+ py_str product_id))
         (invalidate_cache product_id).
Proof. unfold invalidate_cache, cache_key. stable_auto. Qed.

#[export] Hint Resolve invalidate_cache_touches_only : stable.

Lemma get_from_cache_touches_only product_id :
  stable (touches_only ("product:" +:+ py_str product_id))
         (get_from_cache product_id).
Proof. unfold get_from_cache, cache_key. stable_auto. Qed.

Lemma save_to_cache_expiry_touches_only product_data expiry :
  stable (touches_only ("product:" +:+ py_str (dict_get "id" product_data)))
         (save_to_cache_expiry product_data expiry).
Proof. unfold save_to_cache_expiry, cache_key. stable_auto. Qed.

#[export] Hint Resolve get_from_cache_touches_only save_to_cache_expiry_touches_only
  : stable.
#[export] Hint Resolve save_to_db_same_cache : stable.

Lemma save_to_cache_touches_only product_data :
  stable (touches_only ("product:" +:+ py_str (dict_get "id" product_data)))
         (save_to_cache product_data).
Proof. apply save_to_cache_expiry_touches_only. Qed.

#[export] Hint Resolve save_to_cache_touches_only : stable.

Lemma write_strategies_touch_only product_data :
  Forall (fun sw =>
            stable (touches_only ("product:" +:+ py_str (dict_get "id" product_data)))
                   (snd sw product_data))
         write_strategies.
Proof.
  repeat first [apply Forall_nil_2 | apply Forall_cons_2]; simpl;
    unfold cache_aside_write, read_through_write, invalidating_write,
      write_through_write, write_around_write, write_back_write;
    stable_auto.
Qed.

Lemma get_from_db_same_cache product_id :
  stable (same redis_client) (get_from_db product_id).
Proof. unfold get_from_db. stable_auto. Qed.

#[export] Hint Resolve get_from_db_same_cache : stable.

(** A row read for an integer id carries that id. *)
Lemma get_from_db_id n w d w' :
  get_from_db (JInt n) w = (Returned (Some d), w') -> dict_get "id" d = JInt n.
Proof.
  destruct_world w. unfold_store. cbn.
  repeat (case_split; cbn); intros [= <- <-]; reflexivity.
Qed.

Lemma stable_bind_outcome {A B} (R : relation World) `{!PreOrder R}
    (m : M A) (k : A -> M B) :
  stable R m ->
  (forall w a w', m w = (Returned a, w') -> R w' (snd (k a w'))) ->
  stable R (bind m k).
Proof.
  intros Hm Hk w. unfold bind. specialize (Hm w).
  destruct (m w) as [[a|e] w'] eqn:E; simpl in *; [|done].
  etrans; [exact Hm | by apply (Hk w)].
Qed.

Lemma lookaside_read_touches_only n :
  stable (touches_only ("product:" +:+ pretty n)) (lookaside_read (JInt n)).
Proof.
  unfold lookaside_read.
  apply stable_bind; [tc_solve | apply (get_from_cache_touches_only (JInt n)) |].
  intros cached. destruct (truthy cached); [stable_auto|].
  apply stable_try_except; [tc_solve | | intros e; stable_auto].
  apply stable_bind_outcome; [tc_solve | stable_auto |].
  intros w db_product w' Hdb.
  destruct db_product as [d|]; [|simpl; reflexivity].
  apply get_from_db_id in Hdb.
  pose proof (save_to_cache_touches_only d) as Hsave. rewrite Hdb in Hsave.
  revert w'. change (stable (touches_only ("product:" +:+ pretty n))
    (try_except
       ((if truthy_opt (Some d) then save_to_cache d ;; ret tt else ret tt) ;;
        ret (opt_json (Some d)))
       (fun _ => ret (opt_json (Some d))))).
  stable_auto.
Qed.

Lemma read_strategies_touch_only n :
  Forall (fun sr => stable (touches_only ("product:" +:+ pretty n)) (snd sr (JInt n)))
         read_strategies.
Proof.
  pose proof (lookaside_read_touches_only n) as Hl.
  repeat first [apply Forall_nil_2 | apply Forall_cons_2]; simpl;
    unfold write_through_read, write_around_read, write_back_read,
      cache_aside_read, read_through_read;
    stable_auto; exact Hl.
Qed.

(** C5, as the code has it: every Redis command the engine issues for a
    record is on the key ["product:"] followed by [str(id)] (the decimal
    numeral for an integer id), and no other key of the cache changes.
    This holds of the three cache functions (the GET of [get_from_cache],
    the SETEX of [save_to_cache], the DELETE of [invalidate_cache]), of
    the five reads of an integer id and of the five writes of a record. *)
Theorem cache_entries_keyed_by_product_prefix
    (product_id : json) (product_data : dict) (expiry n : Z) (w : World) :
  touches_only ("product:" +:+ py_str product_id) w
               (exec (get_from_cache product_id) w) /\
  touches_only ("product:" +:+ py_str (dict_get "id" product_data)) w
               (exec (save_to_cache_expiry product_data expiry) w) /\
  touches_only ("product:" +:+ py_str product_id) w
               (exec (invalidate_cache product_id) w) /\
  "product:" +:+ py_str (JInt n) = "product:" +:+ pretty n /\
  Forall (fun sr => touches_only ("product:" +:+ pretty n) w (exec (snd sr (JInt n)) w))
         read_strategies /\
  Forall (fun sw =>
            touches_only ("product:" +:+ py_str (dict_get "id" product_data)) w
                         (exec (snd sw product_data) w))
         write_strategies.
Proof.
  split; [apply get_from_cache_touches_only|].
  split; [apply save_to_cache_expiry_touches_only|].
  split; [apply invalidate_cache_touches_only|].
  split; [reflexivity|].
  split.
  - eapply Forall_impl; [apply read_strategies_touch_only|].
    intros sr Hs. apply Hs.
  - eapply Forall_impl; [apply write_strategies_touch_only|].
    intros sw Hs. apply Hs.
Qed.

(** C5 as stated fails: the lookup of record 1 sends GET on
    ["product:1"], which is not ["record:1"]. *)
Lemma cache_key_is_not_record_prefixed :
  redis_log (redis_client (exec (get_from_cache (JInt 1)) (fresh_world no_fault no_fault)))
    = [GET "product:1"] /\
  ~ touches_only ("record:" +:+ py_str (JInt 1)) (fresh_world no_fault no_fault)
      (exec (get_from_cache (JInt 1)) (fresh_world no_fault no_fault)).
Proof.
  split; [reflexivity|].
  intros [(cmds & Hlog & Hall) _].
  change (redis_log (redis_client (exec (get_from_cache (JInt 1))
                                        (fresh_world no_fault no_fault))))
    with [GET "product:1"] in Hlog.
  simpl in Hlog. subst cmds.
  apply Forall_cons in Hall as [Hkey _]. discriminate Hkey.
Qed.

(** ** Failure policy of the synchronous writes *)

Lemma invalidating_write_raised product_data w e w' :
  save_to_db product_data w = (Raised e, w') ->
  invalidating_write product_data w = (Raised e, w').
Proof.
  intros H. unfold invalidating_write.
  apply bind_raised. rewrite (try_except_raised _ _ w e w'); [reflexivity|].
  by apply bind_raised.
Qed.

(** C1: when the store upsert of a cache-aside or read-through write
    fails ([save_to_db] raises in [tick w], the world in which the
    decorated body starts), the write raises that same error to its
    caller, in the very world the failed upsert left; Redis has received
    no command and its key space is as before the call, so nothing was
    invalidated. *)
Theorem invalidating_writes_propagate_store_failure
    (product_data : dict) (w : World) (e : exn) (w' : World) :
  save_to_db product_data (tick w) = (Raised e, w') ->
  cache_aside_write product_data w = (Raised e, w') /\
  read_through_write product_data w = (Raised e, w') /\
  redis_client w' = redis_client w.
Proof.
  intros H. split; [|split].
  - unfold cache_aside_write. apply timer_raised.
    by apply invalidating_write_raised.
  - unfold read_through_write. apply timer_raised.
    by apply invalidating_write_raised.
  - pose proof (save_to_db_same_cache product_data (tick w)) as Hs.
    rewrite H in Hs. exact Hs.
Qed.

Lemma invalidating_writes_propagate_store_failure_witness :
  run (cache_aside_write (product 1 "A" 10)) store_down = Raised SqliteError /\
  run (read_through_write (product 1 "A" 10)) store_down = Raised SqliteError /\
  redis_log (redis_client (exec (cache_aside_write (product 1 "A" 10)) store_down)) = [].
Proof.
  destruct (invalidating_writes_propagate_store_failure
              (product 1 "A" 10) store_down SqliteError
              (snd (save_to_db (product 1 "A" 10) (tick store_down))))
    as (Ha & Hr & Hc).
  - vm_compute. reflexivity.
  - unfold run, exec. rewrite Ha, Hr. repeat split; vm_compute; reflexivity.
Defined.

(** C2: when the cache set of a write-back write fails ([save_to_cache]
    gives [None]), the write raises [IOError]; nothing has been put on
    the write-back queue and SQLite has not been sent a single
    statement: queue and database are as before the call. *)
Theorem write_back_cache_failure_is_hard
    (product_data : dict) (w w' : World) :
  save_to_cache product_data (tick w) = (Returned None, w') ->
  write_back_write product_data w = (Raised IOError, w') /\
  write_back_queue w' = write_back_queue w /\
  database w' = database w.
Proof.
  intros H. split; [|split].
  - unfold write_back_write. apply timer_raised.
    rewrite (bind_returned _ _ _ _ _ H). reflexivity.
  - pose proof (save_to_cache_same_queue product_data (tick w)) as Hs.
    rewrite H in Hs. exact Hs.
  - pose proof (save_to_cache_same_store product_data (tick w)) as Hs.
    rewrite H in Hs. exact Hs.
Qed.

Lemma write_back_cache_failure_is_hard_witness :
  run (write_back_write (product 2 "B" 20)) cache_down = Raised IOError /\
  queue_items (write_back_queue (exec (write_back_write (product 2 "B" 20)) cache_down)) = [] /\
  sql_log (database (exec (write_back_write (product 2 "B" 20)) cache_down)) = [].
Proof.
  destruct (write_back_cache_failure_is_hard
              (product 2 "B" 20) cache_down
              (snd (save_to_cache (product 2 "B" 20) (tick cache_down))))
    as (Hw & Hq & Hd).
  - vm_compute. reflexivity.
  - unfold run, exec. rewrite Hw. repeat split; vm_compute; reflexivity.
Defined.

(** C7: when the store upsert of a write-through write succeeds and the
    cache set that follows fails ([save_to_cache] gives [None]), the
    write returns the record to its caller; the store keeps what the
    upsert committed, the record's row included. *)
Theorem write_through_survives_cache_failure
    (product_data r : dict) (w w1 w2 : World) :
  save_to_db product_data (tick w) = (Returned r, w1) ->
  save_to_cache product_data w1 = (Returned None, w2) ->
  run (write_through_write product_data) w = Returned product_data /\
  database (exec (write_through_write product_data) w) = database w1 /\
  exists k, sql_key (dict_get "id" product_data) = Some k /\
            products (database (exec (write_through_write product_data) w)) !! k
            = Some (row_of product_data).
Proof.
  intros Hdb Hcache.
  assert (Hbody :
    (try_except
       (save_to_db product_data ;;
        saved_cache <- save_to_cache product_data ;;
        if truthy_opt saved_cache then ret tt else ret tt)
       (fun e => raise e) ;;
     ret product_data) (tick w) = (Returned product_data, w2)).
  { unfold bind at 1.
    rewrite (try_except_returned _ _ (tick w) tt w2); [reflexivity|].
    rewrite (bind_returned _ _ _ _ _ Hdb).
    rewrite (bind_returned _ _ _ _ _ Hcache). reflexivity. }
  assert (Hstore : database w2 = database w1).
  { pose proof (save_to_cache_same_store product_data w1) as Hs.
    rewrite Hcache in Hs. exact Hs. }
  unfold run, exec, write_through_write.
  rewrite (timer_returned _ _ _ _ _ _ Hbody). simpl.
  split; [reflexivity|]. split; [exact Hstore|].
  rewrite Hstore. apply (save_to_db_returned _ _ _ _ Hdb).
Qed.

Lemma write_through_survives_cache_failure_witness :
  run (write_through_write (product 1 "A" 10)) cache_down
    = Returned (product 1 "A" 10) /\
  entries (redis_client (exec (write_through_write (product 1 "A" 10)) cache_down))
    = ∅ /\
  products (database (exec (write_through_write (product 1 "A" 10)) cache_down)) !! 1
    = Some (row_of (product 1 "A" 10)).
Proof.
  destruct (write_through_survives_cache_failure
              (product 1 "A" 10) (product 1 "A" 10) cache_down
              (snd (save_to_db (product 1 "A" 10) (tick cache_down)))
              (snd (save_to_cache (product 1 "A" 10)
                      (snd (save_to_db (product 1 "A" 10) (tick cache_down))))))
    as (Hr & _ & k & Hk & Hrow).
  - vm_compute. reflexivity.
  - vm_compute. reflexivity.
  - split; [exact Hr|]. split; [vm_compute; reflexivity|].
    injection Hk as <-. exact Hrow.
Defined.

(** ** Write-around (C8) *)

Lemma write_around_write_same_cache product_data :
  stable (same redis_client) (write_around_write product_data).
Proof.
  unfold write_around_write. stable_auto.
Qed.

Lemma write_around_body_raised product_data w e w' :
  save_to_db product_data w = (Raised e, w') ->
  (try_except (save_to_db product_data ;; ret tt) (fun e => raise e) ;;
   ret product_data) w = (Raised e, w').
Proof.
  intros H. apply bind_raised.
  rewrite (try_except_raised _ _ w e w'); [reflexivity|]. by apply bind_raised.
Qed.

Lemma write_around_body_returned product_data w r w' :
  save_to_db product_data w = (Returned r, w') ->
  (try_except (save_to_db product_data ;; ret tt) (fun e => raise e) ;;
   ret product_data) w = (Returned product_data, w').
Proof.
  intros H. unfold bind at 1.
  rewrite (try_except_returned _ _ w tt w'); [reflexivity|].
  by rewrite (bind_returned _ _ _ _ _ H).
Qed.

(** C8: a write-around write sends Redis no command at all and leaves
    the cache exactly as it was, whatever the outcome; when the write
    returns, it returns the record and the store has a row under the
    record's id; and for every storable record, when SQLite does not
    fail, the write does return and the row is the record's. *)
Theorem write_around_bypasses_cache (product_data : dict) (w : World) :
  redis_client (exec (write_around_write product_data) w) = redis_client w /\
  (forall r, run (write_around_write product_data) w = Returned r ->
             r = product_data /\
             exists k, sql_key (dict_get "id" product_data) = Some k /\
                       is_Some (products (database
                                  (exec (write_around_write product_data) w)) !! k)) /\
  (forall k, storable product_data k -> store_reliable w ->
             run (write_around_write product_data) w = Returned product_data /\
             products (database (exec (write_around_write product_data) w)) !! k
               = Some (row_of product_data)).
Proof.
  split; [apply write_around_write_same_cache|].
  unfold run, exec, write_around_write.
  destruct (save_to_db product_data (tick w)) as [[r0|e] w1] eqn:Hdb.
  - rewrite (timer_returned _ _ _ _ _ _ (write_around_body_returned _ _ _ _ Hdb)).
    simpl. destruct (save_to_db_returned _ _ _ _ Hdb) as (_ & k0 & Hk0 & Hrow).
    split.
    + intros r [= <-]. split; [reflexivity|]. exists k0. by rewrite Hrow.
    + intros k (Hk & _) _. split; [reflexivity|].
      rewrite Hk in Hk0. by injection Hk0 as <-.
  - rewrite (timer_raised _ _ _ _ _ _ (write_around_body_raised _ _ _ _ Hdb)).
    simpl. split; [intros r [=]|].
    intros k Hst Hrel.
    pose proof (save_to_db_succeeds product_data k (tick w) Hst Hrel) as Hok.
    unfold run in Hok. rewrite Hdb in Hok. discriminate Hok.
Qed.

Lemma write_around_bypasses_cache_witness :
  redis_log (redis_client (exec (write_around_write (product 3 "C" 30))
                                (fresh_world no_fault no_fault))) = [] /\
  run (write_around_write (product 3 "C" 30)) (fresh_world no_fault no_fault)
    = Returned (product 3 "C" 30) /\
  products (database (exec (write_around_write (product 3 "C" 30))
                           (fresh_world no_fault no_fault))) !! 3
    = Some {| row_name := JStr "C"; row_price := JFloat "30.0";
              row_description := JNull |}.
Proof.
  destruct (write_around_bypasses_cache (product 3 "C" 30)
              (fresh_world no_fault no_fault)) as (Hc & _ & Hok).
  destruct (Hok 3) as [Hrun Hrow].
  - repeat split; try reflexivity. discriminate.
  - intros n. reflexivity.
  - split; [by rewrite Hc|]. split; [exact Hrun|]. exact Hrow.
Defined.

(** ** Reads served from the cache (C6) *)

Ltac unfold_cache :=
  unfold get_from_cache, invalidate_cache, save_to_cache, save_to_cache_expiry,
    cache_key, json_dumps;
  unfold redis_get, redis_setex, redis_delete, redis_send, set_entries,
    record_cache_hit, record_cache_miss, json_loads,
    bind, ret, raise, try_except, try_finally, modify,
    set_metrics, set_redis.

(** The lookup does not look at the clock. *)
Lemma get_from_cache_clock product_id n w :
  get_from_cache product_id (set_clock_reads n w) =
    (fst (get_from_cache product_id w),
     set_clock_reads n (snd (get_from_cache product_id w))).
Proof.
  destruct_world w. unfold_cache. cbn.
  repeat (case_split; cbn); reflexivity.
Qed.

Lemma get_from_cache_hit product_id w v :
  run (get_from_cache product_id) w = Returned v -> truthy v = true ->
  hit_effect w (exec (get_from_cache product_id) w).
Proof.
  unfold run, exec, hit_effect. destruct_world w. unfold_cache. cbn.
  repeat (case_split; cbn); intros [= <-]; try discriminate;
    intros _; repeat split; reflexivity.
Qed.

Lemma lookaside_read_serves_hit product_id w v :
  run (get_from_cache product_id) w = Returned v -> truthy v = true ->
  serves_hit w v (lookaside_read product_id).
Proof.
  intros Hrun Htrue n.
  exists (set_clock_reads n (exec (get_from_cache product_id) w)). split.
  - unfold lookaside_read, bind. rewrite get_from_cache_clock.
    unfold run in Hrun. rewrite Hrun, Htrue. reflexivity.
  - apply (get_from_cache_hit _ _ _ Hrun Htrue).
Qed.

Lemma timer_serves_hit strategy operation f w v :
  serves_hit w v f -> serves_hit w v (timer strategy operation f).
Proof.
  intros Hf n. destruct (Hf (S n)) as (w' & Hw' & He).
  eexists. split.
  - apply timer_returned. exact Hw'.
  - exact He.
Qed.

Lemma set_clock_reads_id w : set_clock_reads (clock_reads w) w = w.
Proof. by destruct w. Qed.

Lemma read_strategies_serve_hit product_id w v :
  run (get_from_cache product_id) w = Returned v -> truthy v = true ->
  Forall (fun sr => serves_hit w v (snd sr product_id)) read_strategies.
Proof.
  intros Hrun Htrue.
  pose proof (lookaside_read_serves_hit _ _ _ Hrun Htrue) as Hl.
  repeat constructor; simpl;
    unfold write_through_read, write_around_read, write_back_read,
      cache_aside_read, read_through_read;
    repeat apply timer_serves_hit; exact Hl.
Qed.

(** C6, as the code has it: under each of the five strategies, when the
    cache lookup for the id returns a value that Python treats as true
    (as every record the engine caches is), the read returns that value,
    counts exactly one cache hit and no miss, counts no store read or
    write, and leaves SQLite untouched: no statement is sent to it. *)
Theorem cache_hit_is_served_without_store_access
    (product_id v : json) (w : World) :
  run (get_from_cache product_id) w = Returned v -> truthy v = true ->
  Forall (fun sr =>
            run (snd sr product_id) w = Returned v /\
            cache_hits (metrics (exec (snd sr product_id) w))
              = cache_hits (metrics w) + 1 /\
            cache_misses (metrics (exec (snd sr product_id) w))
              = cache_misses (metrics w) /\
            db_reads (metrics (exec (snd sr product_id) w)) = db_reads (metrics w) /\
            sql_log (database (exec (snd sr product_id) w)) = sql_log (database w) /\
            database (exec (snd sr product_id) w) = database w)
         read_strategies.
Proof.
  intros Hrun Htrue.
  eapply Forall_impl; [apply (read_strategies_serve_hit _ _ _ Hrun Htrue)|].
  intros [name read] Hs. simpl in *.
  destruct (Hs (clock_reads w)) as (w' & Hw' & Hh & Hm & Hr & _ & Hd).
  rewrite set_clock_reads_id in Hw'.
  unfold run, exec. rewrite Hw'. simpl.
  repeat split; try assumption. by rewrite Hd.
Qed.

Lemma cache_hit_is_served_without_store_access_witness :
  Forall (fun sr =>
            run (snd sr (JInt 1)) after_write_through
              = Returned (JDict (product 1 "A" 10)) /\
            cache_hits (metrics (exec (snd sr (JInt 1)) after_write_through)) = 1 /\
            sql_log (database (exec (snd sr (JInt 1)) after_write_through))
              = sql_log (database after_write_through))
         read_strategies.
Proof.
  eapply Forall_impl.
  - apply (cache_hit_is_served_without_store_access
             (JInt 1) (JDict (product 1 "A" 10)) after_write_through).
    + vm_compute. reflexivity.
    + reflexivity.
  - intros sr (Hr & Hh & _ & _ & Hl & _). split; [exact Hr|].
    split; [rewrite Hh; reflexivity | exact Hl].
Defined.

(** C6 as stated fails: with the document [{}] cached under the key of
    record 1 the lookup returns a value and counts a hit, yet the read
    takes it for a miss, goes to the store (CONNECT, SELECT), counts a
    store read and returns [None] instead of the cached value. *)
Lemma falsy_cache_hit_goes_to_store :
  run (get_from_cache (JInt 1)) empty_document_cached = Returned (JDict []) /\
  cache_hits (metrics (exec (get_from_cache (JInt 1)) empty_document_cached)) = 1 /\
  run (cache_aside_read (JInt 1)) empty_document_cached = Returned JNull /\
  cache_hits (metrics (exec (cache_aside_read (JInt 1)) empty_document_cached)) = 1 /\
  db_reads (metrics (exec (cache_aside_read (JInt 1)) empty_document_cached)) = 1 /\
  sql_log (database (exec (cache_aside_read (JInt 1)) empty_document_cached))
    = [CONNECT; SELECT (JInt 1)].
Proof. repeat split; vm_compute; reflexivity. Qed.

(** Whatever [save_to_cache] accepts is a non-empty dict, hence true. *)
Lemma record_is_truthy (product_data : dict) :
  dict_contains "id" product_data = true -> truthy (JDict product_data) = true.
Proof. by destruct product_data. Qed.

(** What the engine puts in the cache is the document of such a dict,
    under the default TTL. *)
Lemma save_to_cache_stores_record product_data w r w' :
  save_to_cache product_data w = (Returned (Some r), w') ->
  r = product_data /\
  truthy (JDict product_data) = true /\
  entries (redis_client w') !! ("product:" +:+ py_str (dict_get "id" product_data))
    = Some (Encoded (JDict product_data), 3600).
Proof.
  destruct_world w. unfold_cache. cbn.
  repeat (case_split; cbn); intros [= <- <-]; cbn.
  all: split; [reflexivity|]; split;
    [by destruct product_data | apply lookup_insert_eq].
Qed.

(** ** Store failures on the read path (C4) *)

Lemma store_read_frame product_id w1 w2 :
  database w1 = database w2 ->
  run (store_read product_id) w1 = run (store_read product_id) w2.
Proof.
  destruct_world w1. destruct w2 as [? ? [? ? ? ? ?] ? ? ? ? ?].
  cbn. intros [= -> -> -> -> ->].
  unfold run, store_read. unfold_store. cbn.
  repeat (case_split; cbn); reflexivity.
Qed.

Lemma get_from_db_store_failure product_id w e :
  run (store_read product_id) w = Raised e ->
  run (get_from_db product_id) w = Returned None.
Proof.
  destruct_world w. unfold run, store_read. unfold_store. cbn.
  repeat (case_split; cbn); try discriminate; reflexivity.
Qed.

Lemma get_from_cache_store product_id w :
  database (exec (get_from_cache product_id) w) = database w.
Proof. apply get_from_cache_same_store. Qed.

Lemma lookaside_read_store_failure product_id w v e n :
  run (get_from_cache product_id) w = Returned v -> truthy v = false ->
  run (store_read product_id) w = Raised e ->
  run (lookaside_read product_id) (set_clock_reads n w) = Returned JNull.
Proof.
  intros Hc Hfalse Hs.
  unfold run, lookaside_read, bind at 1. rewrite get_from_cache_clock.
  unfold run in Hc. rewrite Hc, Hfalse.
  set (w1 := set_clock_reads n (snd (get_from_cache product_id w))).
  assert (Hdb : run (get_from_db product_id) w1 = Returned None).
  { apply (get_from_db_store_failure _ _ e). rewrite <- Hs.
    apply store_read_frame. unfold w1. cbn. apply get_from_cache_store. }
  unfold run in Hdb. unfold try_except at 1, bind at 1.
  destruct (get_from_db product_id w1) as [r w2]. simpl in Hdb. subst r.
  reflexivity.
Qed.

Lemma timer_run_returned {A} strategy operation (f : M A) w a :
  run f (tick w) = Returned a -> run (timer strategy operation f) w = Returned a.
Proof.
  unfold run. destruct (f (tick w)) as [r w'] eqn:E. simpl. intros ->.
  by rewrite (timer_returned _ _ _ _ _ _ E).
Qed.

(** C4, as the code has it: when the cache lookup of a read is a miss
    and the store read of the fallback path fails (the connection or the
    SELECT raises, as SQLite stands when the read starts), [get_from_db]
    catches the error and the read returns [None] (not found) to its
    caller, under each of the five strategies; nothing is raised. *)
Theorem store_read_failure_reads_as_absent
    (product_id v : json) (w : World) (e : exn) :
  run (get_from_cache product_id) w = Returned v -> truthy v = false ->
  run (store_read product_id) w = Raised e ->
  Forall (fun sr => run (snd sr product_id) w = Returned JNull) read_strategies.
Proof.
  intros Hc Hfalse Hs.
  pose proof (fun n => lookaside_read_store_failure _ _ _ _ n Hc Hfalse Hs) as Hl.
  repeat constructor; simpl;
    unfold write_through_read, write_around_read, write_back_read,
      cache_aside_read, read_through_read;
    repeat apply timer_run_returned.
  - apply (Hl (S (clock_reads w))).
  - apply (Hl (S (clock_reads w))).
  - apply (Hl (S (S (clock_reads w)))).
  - apply (Hl (S (S (clock_reads w)))).
  - apply (Hl (S (S (clock_reads w)))).
Qed.

Lemma store_read_failure_reads_as_absent_witness :
  Forall (fun sr => run (snd sr (JInt 1)) store_down = Returned JNull) read_strategies.
Proof.
  apply (store_read_failure_reads_as_absent (JInt 1) JNull store_down SqliteError).
  - vm_compute. reflexivity.
  - reflexivity.
  - vm_compute. reflexivity.
Defined.

(** C4 as stated fails: with an empty cache and SQLite down, the store
    read of the fallback path raises, and yet the cache-aside read of
    record 1 returns [None] instead of raising. *)
Lemma store_read_failure_is_not_propagated :
  run (get_from_cache (JInt 1)) store_down = Returned JNull /\
  run (store_read (JInt 1)) (exec (get_from_cache (JInt 1)) store_down)
    = Raised SqliteError /\
  run (cache_aside_read (JInt 1)) store_down = Returned JNull /\
  ~ (exists e, run (cache_aside_read (JInt 1)) store_down = Raised e).
Proof.
  repeat split; try (vm_compute; reflexivity).
  intros [e He]. vm_compute in He. discriminate He.
Qed.

(** ** The store-write counter (C10) *)

Lemma save_to_db_counts_attempt product_data w :
  db_writes (metrics (exec (save_to_db product_data) w)) = db_writes (metrics w) + 1.
Proof.
  unfold exec. destruct_world w. unfold_store. cbn.
  repeat (case_split; cbn); reflexivity.
Qed.

Ltac unfold_worker :=
  unfold worker_iteration, persist_item;
  unfold queue_put, queue_get, queue_task_done, set_queue;
  unfold_store.

(** Once the connection is open, the worker counts the attempt whatever
    becomes of it. *)
Lemma persist_item_counts_attempt product_data w :
  sqlite_fault (database w) (length (sql_log (database w))) = false ->
  db_writes (metrics (exec (persist_item product_data) w)) = db_writes (metrics w) + 1.
Proof.
  unfold exec. destruct_world w. unfold_worker. cbn. intros ->. cbn.
  repeat (case_split; cbn); reflexivity.
Qed.

(** When the connection fails, the item is dropped uncounted. *)
Lemma persist_item_connect_failure product_data w :
  sqlite_fault (database w) (length (sql_log (database w))) = true ->
  db_writes (metrics (exec (persist_item product_data) w)) = db_writes (metrics w).
Proof.
  unfold exec. destruct_world w. unfold_worker. cbn. intros ->. cbn.
  repeat (case_split; cbn); reflexivity.
Qed.

(** C10, at the failing input: the worker dequeues a well-formed record
    while [sqlite3.connect] raises.  The item leaves the queue and the
    attempt is lost without [db_writes] being incremented, whereas
    [save_to_db], given the same record and the same failing connection,
    does count its attempt. *)
Theorem worker_connect_failure_is_not_counted :
  queue_items (write_back_queue worker_store_down) = [product 1 "A" 10] /\
  queue_items (write_back_queue (exec worker_iteration worker_store_down)) = [] /\
  sql_log (database (exec worker_iteration worker_store_down)) = [CONNECT] /\
  db_writes (metrics (exec worker_iteration worker_store_down))
    = db_writes (metrics worker_store_down) /\
  run (save_to_db (product 1 "A" 10)) store_down = Raised SqliteError /\
  sql_log (database (exec (save_to_db (product 1 "A" 10)) store_down)) = [CONNECT] /\
  db_writes (metrics (exec (save_to_db (product 1 "A" 10)) store_down))
    = db_writes (metrics store_down) + 1.
Proof. repeat split; vm_compute; reflexivity. Qed.

(** ** Draining the write-back queue (C9) *)

Lemma worker_iteration_same_running : stable (same write_back_running) worker_iteration.
Proof. unfold worker_iteration, persist_item. stable_auto. Qed.

Lemma worker_iteration_same_thread : stable (same write_back_thread) worker_iteration.
Proof. unfold worker_iteration, persist_item. stable_auto. Qed.

Lemma worker_iteration_same_faults :
  stable (same (fun w => sqlite_fault (database w))) worker_iteration.
Proof. unfold worker_iteration, persist_item. stable_auto. Qed.

Lemma worker_iteration_returns w : run worker_iteration w = Returned tt.
Proof.
  unfold run, worker_iteration, try_except.
  destruct (bind queue_get _ w) as [[[]|e] w']; [reflexivity|].
  by destruct e.
Qed.

Lemma worker_iteration_eq w :
  worker_iteration w = (Returned tt, exec worker_iteration w).
Proof.
  pose proof (worker_iteration_returns w) as H. unfold run, exec in *.
  destruct (worker_iteration w) as [r w']. simpl in *. by subst.
Qed.

(** On an empty queue the iteration is the time-out of [get]: nothing
    changes. *)
Lemma worker_iteration_idle w :
  queue_items (write_back_queue w) = [] -> exec worker_iteration w = w.
Proof.
  unfold exec. destruct_world w. cbn. intros ->. reflexivity.
Qed.

(** One iteration takes the head of the queue, whatever comes of it, and
    never marks more tasks done than were unfinished. *)
Lemma worker_iteration_dequeues item rest w :
  queue_items (write_back_queue w) = item :: rest ->
  queue_items (write_back_queue (exec worker_iteration w)) = rest /\
  (0 <= unfinished_tasks (write_back_queue w) ->
   0 <= unfinished_tasks (write_back_queue (exec worker_iteration w))
     <= Z.max 0 (unfinished_tasks (write_back_queue w) - 1)).
Proof.
  unfold exec. destruct_world w. cbn. intros ->. unfold_worker. cbn.
  repeat (case_split; cbn); (split; [reflexivity|]); lia.
Qed.

(** Whether the four values of a record are bound does not depend on
    the order of the parameters, which differs between the UPDATE and
    the INSERT. *)
Lemma bind_parameters_order n p d i :
  bind_parameters [n; p; d; i] = Returned tt <->
  bind_parameters [i; n; p; d] = Returned tt.
Proof.
  rewrite !bind_parameters_returned, !Forall_cons, Forall_nil. tauto.
Qed.

Ltac bind_cases item :=
  pose proof (bind_parameters_order (dict_get "name" item) (dict_get "price" item)
                (dict_get "description" item) (dict_get "id" item)) as Hord;
  destruct (bind_parameters [dict_get "name" item; dict_get "price" item;
                             dict_get "description" item; dict_get "id" item])
    as [[]|?] eqn:Bu,
      (bind_parameters [dict_get "id" item; dict_get "name" item;
                        dict_get "price" item; dict_get "description" item])
    as [[]|?] eqn:Bi;
  try (destruct Hord as [H1 H2];
       first [specialize (H1 eq_refl) | specialize (H2 eq_refl)]; discriminate);
  clear Hord.

(** The only change an iteration can make to the table is the upsert of
    the item it took. *)
Lemma worker_iteration_table item rest w :
  queue_items (write_back_queue w) = item :: rest ->
  products (database (exec worker_iteration w)) = products (database w) \/
  products (database (exec worker_iteration w)) = upsert (products (database w)) item.
Proof.
  unfold exec, upsert, store_entry, row_of, bound_row.
  destruct_world w. cbn. intros ->. unfold_worker. cbn.
  bind_cases item; cbn;
    repeat (case_split; cbn in *; simplify_eq); try discriminate; auto.
Qed.

(** With SQLite reliable, one iteration upserts the head of the queue if
    it is storable and drops it otherwise. *)
Lemma worker_iteration_persists item rest w :
  queue_items (write_back_queue w) = item :: rest ->
  store_reliable w ->
  products (database (exec worker_iteration w)) = upsert (products (database w)) item.
Proof.
  unfold exec, store_reliable, upsert, store_entry, row_of, bound_row.
  destruct_world w. cbn. intros -> Hrel. unfold_worker. cbn.
  rewrite !Hrel. cbn.
  bind_cases item; cbn;
    repeat (case_split; cbn in *; rewrite ?Hrel in *; cbn in *; simplify_eq);
    try discriminate; try reflexivity;
    destruct (dict_get "id" item); cbn in *; discriminate.
Qed.

(** A storable item whose attempt meets no database error is committed. *)
Lemma worker_iteration_commits item rest k w :
  queue_items (write_back_queue w) = item :: rest ->
  storable item k -> attempt_unfailed w ->
  products (database (exec worker_iteration w)) !! k = Some (row_of item).
Proof.
  intros Hq Hst Hok.
  destruct (storable_accepted _ _ Hst) as (Hid & Bid & Bu & Bi & Hnn).
  destruct Hst as (Hk & _ & Hn & Hp & _).
  pose proof (Hok 0%nat ltac:(lia)) as H0.
  pose proof (Hok 1%nat ltac:(lia)) as H1.
  pose proof (Hok 2%nat ltac:(lia)) as H2.
  pose proof (Hok 3%nat ltac:(lia)) as H3.
  clear Hok. revert Hq H0 H1 H2 H3 Hnn.
  unfold exec, row_of, bound_row. destruct_world w. cbn. intros -> H0 H1 H2 H3 Hnn.
  rewrite Nat.add_0_r in H0.
  unfold_worker. cbn.
  rewrite Hid, Hn, Hp, Bid, Hk, H0, Bu, Bi. cbn.
  repeat (case_split; cbn in *; rewrite ?Hnn in *; simplify_eq);
    rewrite ?length_app in *; cbn in *; rewrite <- ?Nat.add_assoc in *; cbn in *;
    try congruence;
    apply lookup_insert_eq.
Qed.

(** *** The worker loop, iteration by iteration *)

Lemma worker_runs_add a b w :
  worker_runs (a + b) w = worker_runs b (worker_runs a w).
Proof. revert w. induction a as [|a IH]; intros w; simpl; [reflexivity | apply IH]. Qed.

Lemma worker_runs_running n w :
  write_back_running (worker_runs n w) = write_back_running w.
Proof.
  revert w. induction n as [|n IH]; intros w; simpl; [reflexivity|].
  rewrite IH. apply worker_iteration_same_running.
Qed.

Lemma worker_runs_thread n w :
  write_back_thread (worker_runs n w) = write_back_thread w.
Proof.
  revert w. induction n as [|n IH]; intros w; simpl; [reflexivity|].
  rewrite IH. apply worker_iteration_same_thread.
Qed.

Lemma worker_runs_queue n w :
  queue_items (write_back_queue (worker_runs n w))
    = drop n (queue_items (write_back_queue w)).
Proof.
  revert w. induction n as [|n IH]; intros w; simpl; [by rewrite drop_0|].
  rewrite IH. destruct (queue_items (write_back_queue w)) as [|item rest] eqn:Hq.
  - rewrite (worker_iteration_idle w Hq), Hq. by rewrite drop_nil.
  - by rewrite (proj1 (worker_iteration_dequeues item rest w Hq)).
Qed.

Lemma store_reliable_step w :
  store_reliable w -> store_reliable (exec worker_iteration w).
Proof.
  unfold store_reliable. intros H n.
  pose proof (worker_iteration_same_faults w) as Hf. unfold same in Hf.
  unfold exec. by rewrite Hf.
Qed.

Lemma persisted_app done rest table :
  persisted (done ++ rest) table = persisted rest (persisted done table).
Proof. unfold persisted. apply foldl_app. Qed.

(** With SQLite reliable the table follows the queue. *)
Lemma worker_runs_persisted n w :
  store_reliable w ->
  products (database (worker_runs n w))
    = persisted (take n (queue_items (write_back_queue w))) (products (database w)).
Proof.
  revert w. induction n as [|n IH]; intros w Hrel; simpl; [reflexivity|].
  destruct (queue_items (write_back_queue w)) as [|item rest] eqn:Hq.
  - rewrite (worker_iteration_idle w Hq), (IH w Hrel), Hq. by rewrite take_nil.
  - rewrite (IH _ (store_reliable_step w Hrel)).
    rewrite (proj1 (worker_iteration_dequeues item rest w Hq)).
    by rewrite (worker_iteration_persists item rest w Hq Hrel).
Qed.

(** A row stays as it is while no storable item for its key is taken. *)
Lemma worker_runs_keeps n w k r :
  no_write_for k (queue_items (write_back_queue w)) ->
  products (database w) !! k = Some r ->
  products (database (worker_runs n w)) !! k = Some r.
Proof.
  revert w. induction n as [|n IH]; intros w Hall Hr; simpl; [exact Hr|].
  destruct (queue_items (write_back_queue w)) as [|item rest] eqn:Hq.
  - rewrite (worker_iteration_idle w Hq). apply IH; [by rewrite Hq | exact Hr].
  - apply Forall_cons in Hall as [Hitem Hrest]. apply IH.
    + by rewrite (proj1 (worker_iteration_dequeues item rest w Hq)).
    + destruct (worker_iteration_table item rest w Hq) as [-> | ->]; [exact Hr|].
      unfold upsert. destruct (store_entry item) as [[k' r']|] eqn:E; [|exact Hr].
      rewrite lookup_insert_ne; [exact Hr|]. intros ->. by apply (Hitem r').
Qed.

(** Rows are never removed: a key of the table stays one. *)
Lemma worker_runs_keeps_key n w k :
  is_Some (products (database w) !! k) ->
  is_Some (products (database (worker_runs n w)) !! k).
Proof.
  revert w. induction n as [|n IH]; intros w Hk; simpl; [exact Hk|].
  apply IH.
  destruct (queue_items (write_back_queue w)) as [|item rest] eqn:Hq.
  - by rewrite (worker_iteration_idle w Hq).
  - destruct (worker_iteration_table item rest w Hq) as [-> | ->]; [exact Hk|].
    unfold upsert. destruct (store_entry item) as [[k' r']|]; [|exact Hk].
    rewrite lookup_insert. case_decide; eauto.
Qed.

Lemma storable_store_entry product_data k :
  storable product_data k -> store_entry product_data = Some (k, row_of product_data).
Proof.
  intros Hst. destruct (storable_accepted _ _ Hst) as (Hid & _ & _ & Bi & Hnn).
  destruct Hst as (Hk & _ & Hn & Hp & _).
  unfold store_entry. rewrite Hid, Hn, Hp, Bi, Hk. cbn. by rewrite Hnn.
Qed.

(** The record at position [length before] of the queue, committed at
    its turn, has a row in the table at the end: its own if no later
    item replaces it. *)
Lemma worker_runs_record before p after k w :
  queue_items (write_back_queue w) = (before ++ p :: after)%list ->
  storable p k ->
  attempt_unfailed (worker_runs (length before) w) ->
  is_Some (products (database (worker_runs (length (before ++ p :: after)) w)) !! k) /\
  (no_write_for k after ->
   products (database (worker_runs (length (before ++ p :: after)) w)) !! k
     = Some (row_of p)).
Proof.
  intros Hq Hst Hok.
  rewrite length_app. simpl length.
  rewrite worker_runs_add. change (S (length after)) with (1 + length after)%nat.
  rewrite worker_runs_add.
  set (wp := worker_runs (length before) w) in *.
  assert (Hqp : queue_items (write_back_queue wp) = p :: after).
  { unfold wp. rewrite worker_runs_queue, Hq. by rewrite drop_app_length. }
  pose proof (worker_iteration_commits p after k wp Hqp Hst Hok) as Hrow.
  split.
  - apply worker_runs_keeps_key. simpl. rewrite Hrow. eauto.
  - intros Hafter. apply worker_runs_keeps; [|exact Hrow].
    simpl. by rewrite (proj1 (worker_iteration_dequeues p after wp Hqp)).
Qed.

Lemma queue_put_consistent item w :
  queue_consistent w -> queue_consistent (exec (queue_put item) w).
Proof.
  unfold queue_consistent, exec, queue_put. cbn.
  rewrite length_app. simpl. lia.
Qed.

Lemma worker_iteration_consistent w :
  queue_consistent w -> queue_consistent (exec worker_iteration w).
Proof.
  unfold queue_consistent. intros Hc.
  destruct (queue_items (write_back_queue w)) as [|item rest] eqn:Hq.
  - rewrite (worker_iteration_idle w Hq), Hq. exact Hc.
  - destruct (worker_iteration_dequeues item rest w Hq) as [Hrest Hu].
    specialize (Hu (proj1 Hc)). rewrite Hrest. simpl length in Hc. lia.
Qed.

(** *** The loop and the two joins *)

(** The worker leaves its loop only with the flag down and the queue
    empty. *)
Lemma worker_exit_means_drained fuel w w' :
  process_write_back_queue fuel w = (Returned true, w') ->
  queue_items (write_back_queue w') = [] /\ write_back_running w' = false.
Proof.
  revert w. induction fuel as [|fuel IH]; intros w; simpl;
    destruct (loop_condition w) eqn:Hc.
  - discriminate.
  - intros [= <-]. unfold loop_condition, queue_empty in Hc.
    apply orb_false_elim in Hc as [Hr Hq]. cbn.
    split; [|exact Hr]. by destruct (queue_items (write_back_queue w)).
  - unfold bind. rewrite worker_iteration_eq. apply IH.
  - intros [= <-]. unfold loop_condition, queue_empty in Hc.
    apply orb_false_elim in Hc as [Hr Hq]. cbn.
    split; [|exact Hr]. by destruct (queue_items (write_back_queue w)).
Qed.

(** After the stop signal the worker goes through every queued item and
    then returns. *)
Lemma worker_drains fuel w :
  write_back_running w = false ->
  (length (queue_items (write_back_queue w)) <= fuel)%nat ->
  process_write_back_queue fuel w =
    (Returned true,
     thread_exit (worker_runs (length (queue_items (write_back_queue w))) w)).
Proof.
  revert w. induction fuel as [|fuel IH]; intros w Hrun Hlen;
    destruct (queue_items (write_back_queue w)) as [|item rest] eqn:Hq;
    simpl in Hlen; try lia; simpl;
    unfold loop_condition, queue_empty; rewrite Hrun, Hq; simpl; try reflexivity.
  unfold bind. rewrite worker_iteration_eq.
  destruct (worker_iteration_dequeues item rest w Hq) as [Hrest _].
  rewrite IH.
  - by rewrite Hrest.
  - pose proof (worker_iteration_same_running w) as Hs. unfold same in Hs.
    unfold exec. by rewrite Hs.
  - rewrite Hrest. lia.
Qed.

Lemma thread_alive_step w :
  thread_alive (exec worker_iteration w) = thread_alive w.
Proof.
  pose proof (worker_iteration_same_thread w) as Hs. unfold same in Hs.
  unfold thread_alive, exec. by rewrite Hs.
Qed.

(** [queue.join()] returns after the worker has gone through some prefix
    of the queue. *)
Lemma queue_join_returns fuel w :
  write_back_running w = false -> thread_alive w = true ->
  queue_consistent w ->
  (length (queue_items (write_back_queue w)) <= fuel)%nat ->
  exists j, (j <= length (queue_items (write_back_queue w)))%nat /\
            queue_join fuel w = (Returned true, worker_runs j w).
Proof.
  unfold queue_consistent.
  revert w. induction fuel as [|fuel IH]; intros w Hrun Halive Hu Hlen.
  - destruct (queue_items (write_back_queue w)) eqn:Hq; simpl in Hlen; [|lia].
    simpl in Hu. assert (Hz : unfinished_tasks (write_back_queue w) = 0) by lia.
    exists O. simpl. rewrite Hz. split; [lia | reflexivity].
  - simpl. destruct (unfinished_tasks (write_back_queue w) =? 0) eqn:Hz.
    + exists O. split; [lia | reflexivity].
    + apply Z.eqb_neq in Hz. rewrite Halive. simpl.
      destruct (queue_items (write_back_queue w)) as [|item rest] eqn:Hq.
      { simpl in Hu. lia. }
      unfold loop_condition, queue_empty. rewrite Hrun, Hq. simpl.
      destruct (worker_iteration_dequeues item rest w Hq) as [Hrest Hunf].
      specialize (Hunf (proj1 Hu)).
      destruct (IH (exec worker_iteration w)) as (j & Hj & Hjoin).
      * pose proof (worker_iteration_same_running w) as Hs. unfold same in Hs.
        unfold exec. by rewrite Hs.
      * by rewrite thread_alive_step.
      * rewrite Hrest. simpl length in Hu. lia.
      * rewrite Hrest. simpl in Hlen. lia.
      * exists (S j). unfold bind. rewrite worker_iteration_eq.
        rewrite Hrest in Hj. split; [simpl; lia | exact Hjoin].
Qed.

(** What [stop] amounts to for a running pipeline: the flag goes down,
    the worker goes through the whole queue and exits, the handle is
    cleared. *)
Lemma stop_write_back_thread_drains join_fuel patience w :
  write_back_running w = true -> thread_alive w = true ->
  queue_consistent w ->
  (length (queue_items (write_back_queue w)) <= join_fuel)%nat ->
  (length (queue_items (write_back_queue w)) <= patience)%nat ->
  stop_write_back_thread join_fuel patience w =
    (Returned true,
     set_thread None
       (thread_exit (worker_runs (length (queue_items (write_back_queue w)))
                                 (set_running false w)))).
Proof.
  intros Hrun Halive Hu Hjf Hpat.
  destruct (queue_join_returns join_fuel (set_running false w) eq_refl Halive Hu Hjf)
    as (j & Hj & Hjoin).
  cbn in Hj.
  set (w0 := set_running false w) in *.
  set (n := length (queue_items (write_back_queue w))) in *.
  assert (Hq1 : length (queue_items (write_back_queue (worker_runs j w0))) = (n - j)%nat).
  { rewrite worker_runs_queue, length_drop. reflexivity. }
  assert (Hp : process_write_back_queue patience (worker_runs j w0) =
               (Returned true, thread_exit (worker_runs n w0))).
  { rewrite worker_drains.
    - rewrite Hq1, <- worker_runs_add. by replace (j + (n - j))%nat with n by lia.
    - by rewrite worker_runs_running.
    - rewrite Hq1. lia. }
  unfold stop_write_back_thread. rewrite Hrun. simpl.
  unfold bind at 1, modify at 1. fold w0.
  unfold bind at 1. rewrite Hjoin. unfold bind at 1.
  assert (Ha : thread_alive (worker_runs j w0) = true).
  { unfold thread_alive. rewrite worker_runs_thread. exact Halive. }
  rewrite Ha. unfold bind at 1. rewrite Hp. reflexivity.
Qed.

(** A write-back write that returns has put the record at the tail of
    the queue. *)
Lemma write_back_write_enqueues product_data w r w' :
  write_back_write product_data w = (Returned r, w') ->
  r = product_data /\
  queue_items (write_back_queue w')
    = (queue_items (write_back_queue w) ++ [product_data])%list.
Proof.
  destruct_world w. unfold write_back_write, timer, time_monotonic, record_time,
    truthy_opt, set_clock_reads.
  unfold_cache. unfold queue_put, set_queue. cbn.
  repeat (case_split; cbn); intros [= <- <-]; split; reflexivity.
Qed.

(** *** Records written before the stop *)

Lemma no_write_for_app k items items' :
  no_write_for k items -> no_write_for k items' -> no_write_for k (items ++ items').
Proof. unfold no_write_for. apply Forall_app_2. Qed.

Lemma store_entry_key q k r :
  store_entry q = Some (k, r) -> sql_key (dict_get "id" q) = Some k.
Proof.
  unfold store_entry.
  destruct (_ || _); [discriminate|].
  destruct (bind_parameters _); [|discriminate].
  destruct (sql_key (dict_get "id" q)); cbn; [|discriminate].
  destruct (not_null _); [|discriminate]. by intros [= -> _].
Qed.

Lemma other_key_no_write q k :
  sql_key (dict_get "id" q) <> Some k -> no_write_for k [q].
Proof.
  intros Hk. constructor; [|constructor]. intros r Hr.
  apply Hk. by apply (store_entry_key q k r).
Qed.

Lemma upsert_other_key table item k :
  (forall r, store_entry item <> Some (k, r)) ->
  upsert table item !! k = table !! k.
Proof.
  intros Hitem. unfold upsert. destruct (store_entry item) as [[k' r']|] eqn:E; [|done].
  rewrite lookup_insert_ne; [done|]. intros ->. by apply (Hitem r').
Qed.

Lemma persisted_keeps items table k :
  no_write_for k items -> persisted items table !! k = table !! k.
Proof.
  revert table. induction items as [|item rest IH]; intros table Hall; [done|].
  apply Forall_cons in Hall as [Hitem Hrest]. unfold persisted in *. simpl.
  rewrite (IH _ Hrest). by apply upsert_other_key.
Qed.

(** Once the queue has been gone through, a record in flight has its
    row in the table. *)
Lemma persisted_in_flight p k w :
  storable p k -> in_flight p k w ->
  persisted (queue_items (write_back_queue w)) (products (database w)) !! k
    = Some (row_of p).
Proof.
  intros Hst [(before & after & -> & Hafter) | [Hrow Hq]].
  - rewrite persisted_app. change (p :: after) with ([p] ++ after)%list.
    rewrite persisted_app, (persisted_keeps _ _ _ Hafter).
    unfold persisted at 1. simpl. unfold upsert.
    rewrite (storable_store_entry _ _ Hst). apply lookup_insert_eq.
  - by rewrite (persisted_keeps _ _ _ Hq).
Qed.

Lemma worker_iteration_in_flight p k w :
  storable p k -> store_reliable w ->
  in_flight p k w -> in_flight p k (exec worker_iteration w).
Proof.
  intros Hst Hrel Hin.
  destruct (queue_items (write_back_queue w)) as [|item rest] eqn:Hq.
  { by rewrite (worker_iteration_idle w Hq). }
  pose proof (worker_iteration_persists item rest w Hq Hrel) as Htable.
  pose proof (proj1 (worker_iteration_dequeues item rest w Hq)) as Hrest.
  unfold in_flight. rewrite Htable, Hrest.
  destruct Hin as [(before & after & Hba & Hafter) | [Hrow Hall]].
  - rewrite Hq in Hba. destruct before as [|b before]; simpl in Hba.
    + injection Hba as -> ->. right. split; [|exact Hafter].
      unfold upsert. rewrite (storable_store_entry _ _ Hst). apply lookup_insert_eq.
    + injection Hba as -> ->. left. by exists before, after.
  - rewrite Hq in Hall. apply Forall_cons in Hall as [Hitem Hall].
    right. split; [|exact Hall]. by rewrite upsert_other_key.
Qed.

(** The reads leave the table and the queue alone. *)
Lemma reads_same_table :
  Forall (fun sr => forall product_id,
              stable (same (fun w => products (database w))) (snd sr product_id) /\
              stable (same write_back_queue) (snd sr product_id) /\
              stable (same (fun w => sqlite_fault (database w))) (snd sr product_id))
         read_strategies.
Proof.
  repeat first [apply Forall_nil_2 | apply Forall_cons_2]; simpl; intros product_id;
    (split; [|split]);
    unfold write_through_read, write_around_read, write_back_read, cache_aside_read,
      read_through_read, lookaside_read, get_from_db, get_from_cache, save_to_cache,
      save_to_cache_expiry, invalidate_cache;
    stable_auto.
Qed.

Ltac unfold_writes :=
  unfold cache_aside_write, read_through_write, invalidating_write,
    write_through_write, write_around_write, write_back_write, save_to_cache,
    save_to_cache_expiry, invalidate_cache.

Lemma write_back_write_queue product_data w :
  queue_items (write_back_queue (exec (write_back_write product_data) w))
    = queue_items (write_back_queue w) \/
  queue_items (write_back_queue (exec (write_back_write product_data) w))
    = (queue_items (write_back_queue w) ++ [product_data])%list.
Proof.
  unfold exec. destruct_world w.
  unfold write_back_write, timer, time_monotonic, record_time, truthy_opt,
    set_clock_reads.
  unfold_cache. unfold queue_put, set_queue. cbn.
  repeat (case_split; cbn); auto.
Qed.

(** A write of a record with another id leaves the row of [k] alone; the
    only change a write makes to the queue is to append its record. *)
Lemma writes_keep_other_rows k :
  Forall (fun sw => forall product_data,
              sql_key (dict_get "id" product_data) <> Some k ->
              stable (same (fun w => products (database w) !! k)) (snd sw product_data) /\
              stable (same (fun w => sqlite_fault (database w))) (snd sw product_data) /\
              forall w,
                queue_items (write_back_queue (exec (snd sw product_data) w))
                  = queue_items (write_back_queue w) \/
                queue_items (write_back_queue (exec (snd sw product_data) w))
                  = (queue_items (write_back_queue w) ++ [product_data])%list)
         write_strategies.
Proof.
  repeat first [apply Forall_nil_2 | apply Forall_cons_2]; simpl;
    intros product_data Hk;
    pose proof (save_to_db_other_rows product_data k Hk) as Hrows;
    pose proof (save_to_db_same_faults product_data) as Hfaults;
    pose proof (save_to_db_same_queue product_data) as Hqueue;
    (split; [unfold_writes; stable_auto|]);
    (split; [unfold_writes; stable_auto|]).
  5: apply write_back_write_queue.
  all: intros w; left; unfold exec; apply (f_equal queue_items).
  - assert (Hq : stable (same write_back_queue) (cache_aside_write product_data))
      by (unfold_writes; stable_auto). apply Hq.
  - assert (Hq : stable (same write_back_queue) (read_through_write product_data))
      by (unfold_writes; stable_auto). apply Hq.
  - assert (Hq : stable (same write_back_queue) (write_through_write product_data))
      by (unfold_writes; stable_auto). apply Hq.
  - assert (Hq : stable (same write_back_queue) (write_around_write product_data))
      by (unfold_writes; stable_auto). apply Hq.
Qed.

(** Each step keeps a record in flight, and the fault plan of SQLite. *)
Lemma pipeline_step_in_flight p k w w' :
  storable p k -> pipeline_step k w w' -> store_reliable w ->
  in_flight p k w -> in_flight p k w' /\ store_reliable w'.
Proof.
  intros Hst Hstep Hrel Hin. destruct Hstep as [w | name read product_id w Hread
                                                | name write q i w Hwrite Hid Hi].
  3: assert (Hk : sql_key (dict_get "id" q) <> Some k) by (rewrite Hid; cbn; congruence).
  - split; [by apply worker_iteration_in_flight | by apply store_reliable_step].
  - pose proof reads_same_table as Hall. rewrite Forall_forall in Hall.
    destruct (Hall _ Hread product_id) as (Ht & Hq & Hf). simpl in *.
    specialize (Ht w). specialize (Hq w). specialize (Hf w). unfold same in *.
    split.
    + unfold in_flight, exec. by rewrite Ht, Hq.
    + intros m. unfold exec. rewrite Hf. apply Hrel.
  - pose proof (writes_keep_other_rows k) as Hall. rewrite Forall_forall in Hall.
    destruct (Hall _ Hwrite q Hk) as (Ht & Hf & Hq). simpl in *.
    specialize (Ht w). specialize (Hf w). specialize (Hq w). unfold same in *.
    split.
    + pose proof (other_key_no_write q k Hk) as Hno.
      unfold in_flight. unfold exec at 1 2 in Hq. unfold exec.
      destruct Hin as [(before & after & Hba & Hafter) | [Hrow Hnone]].
      * destruct Hq as [-> | ->].
        -- left. by exists before, after.
        -- left. exists before, (after ++ [q])%list. split.
           ++ rewrite Hba. by rewrite <- app_assoc.
           ++ by apply no_write_for_app.
      * right. rewrite Ht. split; [exact Hrow|].
        destruct Hq as [-> | ->]; [exact Hnone | by apply no_write_for_app].
    + intros m. unfold exec. rewrite Hf. apply Hrel.
Qed.

Lemma pipeline_steps_in_flight p k w w' :
  storable p k -> rtc (pipeline_step k) w w' -> store_reliable w ->
  in_flight p k w -> in_flight p k w' /\ store_reliable w'.
Proof.
  intros Hst Hsteps. induction Hsteps as [w | w w1 w' Hstep Hsteps IH]; [done|].
  intros Hrel Hin.
  destruct (pipeline_step_in_flight _ _ _ _ Hst Hstep Hrel Hin) as [Hin1 Hrel1].
  by apply IH.
Qed.

(** A write-back write that returns has put its record in flight. *)
Lemma write_back_write_in_flight p w :
  run (write_back_write p) w = Returned p ->
  forall k, in_flight p k (exec (write_back_write p) w) /\
            sqlite_fault (database (exec (write_back_write p) w))
              = sqlite_fault (database w).
Proof.
  unfold run, exec. intros Hrun k.
  destruct (write_back_write p w) as [r w1] eqn:Hw. simpl in *. subst r.
  destruct (write_back_write_enqueues _ _ _ _ Hw) as [_ Hq].
  split.
  - left. exists (queue_items (write_back_queue w)), []. split; [exact Hq | constructor].
  - assert (Hf : stable (same (fun w => sqlite_fault (database w))) (write_back_write p))
      by (unfold_writes; stable_auto).
    specialize (Hf w). unfold same in Hf. by rewrite Hw in Hf.
Qed.

(** C9, as the code has it.  A worker leaves its loop only with the
    flag down and the queue empty.  For a running pipeline [stop]
    returns with the queue drained, the flag down and the worker handle
    cleared, provided the worker gets through the queue within the join
    timeout; each queued item has then been attempted once.  A storable
    record of the queue whose attempt meets no database error has a row
    in the store once [stop] has returned, and the row is the record's
    own unless a later queued write for the same id replaced it; when no
    statement fails at all and every queued item is a storable record
    or one the worker drops, the table is the queue's storable items
    upserted in order.  And a storable record written via write-back at
    any time before, whether the worker has taken it since or not, has
    its row in the store once [stop] has returned, whatever reads and
    writes of other ids happened in between, if no statement fails. *)
Theorem stop_drains_write_back_queue (w : World) (join_fuel patience : nat) :
  write_back_running w = true -> thread_alive w = true ->
  queue_consistent w ->
  (length (queue_items (write_back_queue w)) <= join_fuel)%nat ->
  (length (queue_items (write_back_queue w)) <= patience)%nat ->
  (forall fuel w0 w1,
      process_write_back_queue fuel w0 = (Returned true, w1) ->
      queue_items (write_back_queue w1) = [] /\ write_back_running w1 = false) /\
  run (stop_write_back_thread join_fuel patience) w = Returned true /\
  queue_items (write_back_queue (exec (stop_write_back_thread join_fuel patience) w)) = [] /\
  write_back_running (exec (stop_write_back_thread join_fuel patience) w) = false /\
  write_back_thread (exec (stop_write_back_thread join_fuel patience) w) = None /\
  (forall before p after k,
     queue_items (write_back_queue w) = (before ++ p :: after)%list ->
     storable p k ->
     attempt_unfailed (worker_runs (length before) (set_running false w)) ->
     is_Some (products (database (exec (stop_write_back_thread join_fuel patience) w)) !! k) /\
     (no_write_for k after ->
      products (database (exec (stop_write_back_thread join_fuel patience) w)) !! k
        = Some (row_of p))) /\
  (store_reliable w -> storable_or_dropped (queue_items (write_back_queue w)) ->
   products (database (exec (stop_write_back_thread join_fuel patience) w))
     = persisted (queue_items (write_back_queue w)) (products (database w))) /\
  (forall p k w0,
     storable p k -> store_reliable w0 ->
     run (write_back_write p) w0 = Returned p ->
     rtc (pipeline_step k) (exec (write_back_write p) w0) w ->
     products (database (exec (stop_write_back_thread join_fuel patience) w)) !! k
       = Some (row_of p)).
Proof.
  intros Hrun Halive Hu Hjf Hpat.
  split; [apply worker_exit_means_drained|].
  unfold run, exec.
  rewrite (stop_write_back_thread_drains _ _ _ Hrun Halive Hu Hjf Hpat). cbn.
  split; [reflexivity|].
  split; [by rewrite worker_runs_queue, drop_all|].
  split; [by rewrite worker_runs_running|].
  split; [reflexivity|].
  assert (Hall : store_reliable w ->
                 products (database
                   (worker_runs (length (queue_items (write_back_queue w)))
                                (set_running false w)))
                 = persisted (queue_items (write_back_queue w)) (products (database w))).
  { intros Hrel. rewrite (worker_runs_persisted _ (set_running false w) Hrel). cbn.
    by rewrite firstn_all. }
  split; [|split; [intros Hrel _; exact (Hall Hrel)|]].
  - intros before p after k Hq Hst Hok. rewrite Hq.
    by apply worker_runs_record.
  - intros p k w0 Hst Hrel0 Hwrite Hsteps.
    destruct (write_back_write_in_flight p w0 Hwrite k) as [Hin1 Hf1].
    assert (Hrel1 : store_reliable (exec (write_back_write p) w0)).
    { intros n. rewrite Hf1. apply Hrel0. }
    destruct (pipeline_steps_in_flight _ _ _ _ Hst Hsteps Hrel1 Hin1) as [Hin Hrel].
    rewrite (Hall Hrel). by apply persisted_in_flight.
Qed.

Lemma stop_drains_write_back_queue_witness :
  run (stop_write_back_thread 1 1) (exec worker_iteration (after_write_back no_fault))
    = Returned true /\
  queue_items (write_back_queue
                 (exec (stop_write_back_thread 1 1)
                       (exec worker_iteration (after_write_back no_fault)))) = [] /\
  products (database (exec (stop_write_back_thread 1 1)
                           (exec worker_iteration (after_write_back no_fault)))) !! 2
    = Some {| row_name := JStr "B"; row_price := JFloat "20.0";
              row_description := JNull |}.
Proof.
  destruct (stop_drains_write_back_queue
              (exec worker_iteration (after_write_back no_fault)) 1 1)
    as (_ & Hstop & Hq & _ & _ & _ & _ & Hrow).
  - vm_compute. reflexivity.
  - vm_compute. reflexivity.
  - vm_compute. split; discriminate.
  - vm_compute. lia.
  - vm_compute. lia.
  - split; [exact Hstop|]. split; [exact Hq|].
    apply (Hrow (product 2 "B" 20) 2
                (exec start_write_back_thread (fresh_world no_fault no_fault))).
    + repeat split; try reflexivity. discriminate.
    + intros n. reflexivity.
    + vm_compute. reflexivity.
    + apply rtc_once. apply worker_step.
Defined.

(** C9 as stated fails, in two ways.  Record 2 is written via
    write-back with success, the pipeline is stopped and [stop] returns
    with the queue drained, but SQLite refused the worker's COMMIT and
    the record is not in the store.  And with SQLite sound, a record
    whose price is NaN is written via write-back with success, but the
    worker's INSERT fails the NOT NULL constraint on the price and the
    record is not in the store after [stop] either. *)
Lemma write_back_record_lost_on_store_error :
  (run (write_back_write (product 2 "B" 20))
       (exec start_write_back_thread (fresh_world no_fault (fault_at 3)))
     = Returned (product 2 "B" 20) /\
   run (stop_write_back_thread 1 1) (after_write_back (fault_at 3)) = Returned true /\
   queue_items (write_back_queue
                  (exec (stop_write_back_thread 1 1) (after_write_back (fault_at 3)))) = [] /\
   sql_log (database (exec (stop_write_back_thread 1 1) (after_write_back (fault_at 3))))
     = [CONNECT; SELECT (JInt 2); INSERT (JInt 2) (bound_row (product 2 "B" 20)); COMMIT] /\
   products (database (exec (stop_write_back_thread 1 1) (after_write_back (fault_at 3)))) !! 2
     = None) /\
  (run (write_back_write nan_price_record)
       (exec start_write_back_thread (fresh_world no_fault no_fault))
     = Returned nan_price_record /\
   run (stop_write_back_thread 1 1) after_write_back_nan = Returned true /\
   queue_items (write_back_queue (exec (stop_write_back_thread 1 1) after_write_back_nan))
     = [] /\
   sql_log (database (exec (stop_write_back_thread 1 1) after_write_back_nan))
     = [CONNECT; SELECT (JInt 5); INSERT (JInt 5) (bound_row nan_price_record)] /\
   products (database (exec (stop_write_back_thread 1 1) after_write_back_nan)) !! 5
     = None).
Proof. repeat split; vm_compute; reflexivity. Qed.

(** * Further properties of the code *)

(** ** The collector *)

Lemma record_well_formed m r :
  times_well_formed m -> times_well_formed (record m r).
Proof.
  destruct r; simpl; try done. apply record_time_well_formed.
Qed.

Lemma recorded_snoc rs r : recorded (rs ++ [r]) = record (recorded rs) r.
Proof. unfold recorded. by rewrite foldl_app. Qed.

Lemma recorded_well_formed rs : times_well_formed (recorded rs).
Proof.
  induction rs as [|r rs IH] using rev_ind.
  - exact reset_well_formed.
  - rewrite recorded_snoc. by apply record_well_formed.
Qed.

Lemma recorded_counters rs :
  cache_hits (recorded rs) = Z.of_nat (length (filter is_hit rs)) /\
  cache_misses (recorded rs) = Z.of_nat (length (filter is_miss rs)) /\
  db_reads (recorded rs) = Z.of_nat (length (filter is_db_read rs)) /\
  db_writes (recorded rs) = Z.of_nat (length (filter is_db_write rs)).
Proof.
  induction rs as [|r rs (Hh & Hm & Hr & Hw)] using rev_ind.
  - repeat split; reflexivity.
  - rewrite recorded_snoc, !filter_app, !length_app.
    destruct r; simpl; rewrite ?Hh, ?Hm, ?Hr, ?Hw;
      repeat split; simpl; lia.
Qed.

(** X1: whatever has been recorded since the last [reset()], the snapshot is
    produced (no [KeyError]): its four counters are the numbers of
    recordings of each kind and its hit rate lies between 0 and 100. *)
Theorem get_stats_after_recordings (rs : list recording) :
  exists s,
    get_stats (recorded rs) = Returned s /\
    stats_cache_hits s = Z.of_nat (length (filter is_hit rs)) /\
    stats_cache_misses s = Z.of_nat (length (filter is_miss rs)) /\
    stats_db_reads s = Z.of_nat (length (filter is_db_read rs)) /\
    stats_db_writes s = Z.of_nat (length (filter is_db_write rs)) /\
    (0 <= hit_rate s)%Q /\ (hit_rate s <= 100)%Q.
Proof.
  destruct (get_stats_returns _ (recorded_well_formed rs)) as [s Hs].
  destruct (recorded_counters rs) as (Hh & Hm & Hr & Hw).
  exists s. split; [exact Hs|].
  unfold get_stats in Hs. destruct (decide _); [|discriminate].
  injection Hs as <-. simpl.
  repeat (split; [assumption|]).
  rewrite Hh, Hm. clear.
  set (h := Z.of_nat (length (filter is_hit rs))).
  set (k := Z.of_nat (length (filter is_miss rs))).
  assert (0 <= h) by (unfold h; lia). assert (0 <= k) by (unfold k; lia).
  destruct (Z.ltb_spec 0 (h + k)) as [Hpos|Hnp].
  - destruct (h + k) as [|p|p] eqn:E; try lia.
    unfold Qle, Qdiv, Qmult, Qinv, inject_Z. simpl. split; nia.
  - split; unfold Qle; simpl; lia.
Qed.

(** ** Which exceptions can escape *)

Lemma raises_only_weaken {A} (P Q : exn -> Prop) (m : M A) :
  raises_only P m -> (forall e, P e -> Q e) -> raises_only Q m.
Proof. intros Hm HPQ w e He. apply HPQ. by apply (Hm w). Qed.

Lemma raises_only_ret {A} P (a : A) : raises_only P (ret a).
Proof. intros w e. discriminate. Qed.

Lemma raises_only_raise {A} (P : exn -> Prop) e : P e -> raises_only P (@raise A e).
Proof. intros He w e' [= <-]. exact He. Qed.

Lemma raises_only_modify P f : raises_only P (modify f).
Proof. intros w e. discriminate. Qed.

Lemma raises_only_bind {A B} P (m : M A) (k : A -> M B) :
  raises_only P m -> (forall a, raises_only P (k a)) -> raises_only P (bind m k).
Proof.
  intros Hm Hk w e. unfold bind. specialize (Hm w).
  destruct (m w) as [[a|e'] w']; simpl in *.
  - apply Hk.
  - intros [= <-]. by apply Hm.
Qed.

Lemma raises_only_try_except {A} (Q P : exn -> Prop) (m : M A) h :
  raises_only Q m -> (forall e, Q e -> raises_only P (h e)) ->
  raises_only P (try_except m h).
Proof.
  intros Hm Hh w e. unfold try_except. specialize (Hm w).
  destruct (m w) as [[a|e'] w']; simpl in *; [discriminate|].
  apply Hh. by apply Hm.
Qed.

Lemma raises_only_try_finally {A} P (m : M A) fin :
  raises_only P m -> raises_only P fin -> raises_only P (try_finally m fin).
Proof.
  intros Hm Hf w e. unfold try_finally. specialize (Hm w).
  destruct (m w) as [r w']. specialize (Hf w').
  destruct (fin w') as [[[]|e'] w'']; simpl in *.
  - intros ->. by apply Hm.
  - intros [= <-]. by apply Hf.
Qed.

Lemma raises_only_timer {A} P strategy operation (func : M A) :
  raises_only P func -> raises_only P (timer strategy operation func).
Proof.
  intros Hf. unfold timer.
  apply raises_only_bind; [intros w e; discriminate | intros t0].
  apply raises_only_bind; [exact Hf | intros a].
  apply raises_only_bind; [intros w e; discriminate | intros t1].
  apply raises_only_bind; [apply raises_only_modify | intros _; apply raises_only_ret].
Qed.

(** The client libraries raise their own error class and nothing else. *)
Ltac run_raises :=
  let w := fresh "w" in
  let e := fresh "e" in
  intros w e;
  unfold get_db;
  unfold redis_get, redis_setex, redis_delete, redis_send, set_entries,
    sqlite3_connect, sql_select, sql_update, sql_insert, sql_commit, sql_rollback, sql_close,
    sql_send, set_pending, set_g_db, set_products,
    queue_put, queue_get, queue_task_done, time_monotonic,
    record_cache_hit, record_cache_miss, record_db_read, record_db_write,
    record_time, json_loads,
    bind, ret, raise, try_except, try_finally, modify;
  cbn; repeat (case_split; cbn); intros [=]; subst; auto.

Lemma redis_get_raises key : raises_only (fun e => e = RedisError) (redis_get key).
Proof. run_raises. Qed.

Lemma redis_setex_raises key ttl v :
  raises_only (fun e => e = RedisError) (redis_setex key ttl v).
Proof. run_raises. Qed.

Lemma redis_delete_raises key : raises_only (fun e => e = RedisError) (redis_delete key).
Proof. run_raises. Qed.

Lemma never_raises_modify f : never_raises (modify f).
Proof. apply raises_only_modify. Qed.

Lemma invalidate_cache_never_raises product_id :
  never_raises (invalidate_cache product_id).
Proof.
  unfold invalidate_cache.
  eapply raises_only_try_except.
  - apply raises_only_bind; [apply redis_delete_raises | intros ?; apply raises_only_ret].
  - intros e ->. apply raises_only_ret.
Qed.

Lemma get_from_cache_never_raises product_id :
  never_raises (get_from_cache product_id).
Proof.
  unfold get_from_cache.
  apply (raises_only_try_except (fun e => e = RedisError \/ e = JSONDecodeError)).
  - apply raises_only_bind.
    + eapply raises_only_weaken; [apply redis_get_raises | auto].
    + intros [text|]; [destruct (payload_truthy text)|];
        (apply raises_only_bind; [apply raises_only_modify | intros _]);
        try apply raises_only_ret.
      intros w e. destruct text; simpl; intros [=]; auto.
  - intros e [-> | ->].
    + apply raises_only_bind; [apply raises_only_modify | intros _; apply raises_only_ret].
    + apply raises_only_bind; [apply invalidate_cache_never_raises | intros _].
      apply raises_only_bind; [apply raises_only_modify | intros _; apply raises_only_ret].
Qed.

Lemma save_to_cache_never_raises product_data :
  never_raises (save_to_cache product_data).
Proof.
  unfold save_to_cache, save_to_cache_expiry.
  destruct (_ || _); [apply raises_only_ret|].
  eapply raises_only_try_except.
  - apply raises_only_bind; [apply redis_setex_raises | intros ?; apply raises_only_ret].
  - intros e ->. apply raises_only_ret.
Qed.

Lemma lookaside_read_never_raises product_id :
  never_raises (lookaside_read product_id).
Proof.
  unfold lookaside_read.
  apply raises_only_bind; [apply get_from_cache_never_raises | intros product].
  destruct (truthy product); [apply raises_only_ret|].
  apply (raises_only_try_except (fun _ => True)); [done|].
  intros e _. apply raises_only_ret.
Qed.

Lemma read_strategies_never_raise product_id :
  Forall (fun sr => never_raises (snd sr product_id)) read_strategies.
Proof.
  pose proof (lookaside_read_never_raises product_id) as Hl.
  repeat first [apply Forall_nil_2 | apply Forall_cons_2]; simpl;
    unfold write_through_read, write_around_read, write_back_read,
      cache_aside_read, read_through_read;
    repeat apply raises_only_timer; exact Hl.
Qed.

(** X2: none of the three cache functions and none of the five reads ever
    raises: a Redis failure is taken for a miss or a no-op, undecodable
    cached text is dropped, and whatever the store read raises is caught
    by the read, which then answers with what the cache gave. *)
Theorem reads_never_raise (product_id : json) (product_data : dict) :
  never_raises (get_from_cache product_id) /\
  never_raises (save_to_cache product_data) /\
  never_raises (invalidate_cache product_id) /\
  Forall (fun sr => never_raises (snd sr product_id)) read_strategies.
Proof.
  split; [apply get_from_cache_never_raises|].
  split; [apply save_to_cache_never_raises|].
  split; [apply invalidate_cache_never_raises|].
  apply read_strategies_never_raise.
Qed.

Lemma never_raises_returns {A} (m : M A) w :
  never_raises m -> exists a w', m w = (Returned a, w').
Proof.
  intros Hm. specialize (Hm w). destruct (m w) as [[a|e] w']; [eauto|].
  destruct (Hm e eq_refl).
Qed.

Lemma timer_raised_inv {A} strategy operation (func : M A) w e :
  run (timer strategy operation func) w = Raised e ->
  run func (tick w) = Raised e.
Proof.
  unfold run. destruct (func (tick w)) as [[a|e'] w'] eqn:H.
  - by rewrite (timer_returned _ _ _ _ _ _ H).
  - by rewrite (timer_raised _ _ _ _ _ _ H).
Qed.

(** The shape of the four synchronous writes: the upsert, then cache
    work that cannot raise, inside a handler that re-raises. *)
Lemma guarded_write_raised_inv product_data (rest : M unit) w e :
  never_raises rest ->
  run (try_except (save_to_db product_data ;; rest) (fun e => raise e) ;;
       ret product_data) w = Raised e ->
  run (save_to_db product_data) w = Raised e.
Proof.
  intros Hrest. unfold run, bind, try_except, raise, ret.
  destruct (save_to_db product_data w) as [[r|e'] w1]; cbn.
  - destruct (never_raises_returns rest w1 Hrest) as (u & w2 & ->). discriminate.
  - done.
Qed.

Lemma invalidating_write_raised_inv product_data w e :
  run (invalidating_write product_data) w = Raised e ->
  run (save_to_db product_data) w = Raised e.
Proof.
  apply guarded_write_raised_inv.
  apply raises_only_bind; [apply invalidate_cache_never_raises|].
  intros _. apply raises_only_ret.
Qed.

Lemma save_to_cache_returns_truthy product_data w d :
  run (save_to_cache product_data) w = Returned (Some d) -> truthy_opt (Some d) = true.
Proof.
  unfold run. destruct_world w. unfold_cache. cbn.
  repeat (case_split; cbn); intros [=]; subst; cbn; try done.
Qed.

Lemma queue_put_never_raises item : never_raises (queue_put item).
Proof. intros w e. unfold queue_put. cbn. discriminate. Qed.

(** X3: a synchronous write fails only when its store upsert fails, and then
    with the exception of the upsert: no cache failure ever reaches the
    caller.  The write-back write fails only with [IOError], and only
    when the cache set returned [None]: it never reports a validation or
    database error. *)
Theorem write_failures_have_one_cause (product_data : dict) (w : World) (e : exn) :
  Forall (fun sw =>
            run (snd sw product_data) w = Raised e ->
            run (save_to_db product_data) (tick w) = Raised e)
         [("cache_aside", cache_aside_write); ("read_through", read_through_write);
          ("write_through", write_through_write);
          ("write_around", write_around_write)] /\
  (run (write_back_write product_data) w = Raised e ->
   e = IOError /\ run (save_to_cache product_data) (tick w) = Returned None).
Proof.
  split.
  - repeat first [apply Forall_nil_2 | apply Forall_cons_2]; simpl;
      intros H%timer_raised_inv.
    + by apply invalidating_write_raised_inv.
    + by apply invalidating_write_raised_inv.
    + revert H. apply guarded_write_raised_inv.
      apply raises_only_bind; [apply save_to_cache_never_raises|].
      intros saved. destruct (truthy_opt saved); apply raises_only_ret.
    + revert H. apply guarded_write_raised_inv, raises_only_ret.
  - intros H%timer_raised_inv. revert H. unfold run, bind at 1.
    destruct (never_raises_returns _ (tick w) (save_to_cache_never_raises product_data))
      as (saved & w1 & Hs).
    rewrite Hs. unfold bind at 1.
    destruct saved as [d|].
    + assert (Ht : truthy_opt (Some d) = true).
      { apply (save_to_cache_returns_truthy product_data (tick w)).
        unfold run. by rewrite Hs. }
      rewrite Ht.
      destruct (never_raises_returns _ w1 (queue_put_never_raises product_data))
        as (u & w2 & Hq).
      unfold try_except. rewrite Hq. cbn. discriminate.
    + cbn. intros [= <-]. done.
Qed.

Lemma write_failures_have_one_cause_witness :
  run (save_to_db (product 1 "A" 10)) (tick store_down) = Raised SqliteError.
Proof.
  destruct (write_failures_have_one_cause (product 1 "A" 10) store_down SqliteError)
    as [H _].
  apply Forall_cons_1 in H as [H _]. apply H. vm_compute. reflexivity.
Defined.

(** ** The GET view *)

Lemma strategy_lookup_unknown strategy :
  strategy_lookup strategy read_strategies = None <->
  strategy ∉ ["cache_aside"; "read_through"; "write_through"; "write_around";
               "write_back"].
Proof.
  unfold read_strategies. simpl.
  rewrite !not_elem_of_cons.
  repeat match goal with
         | |- context [String.eqb strategy ?name] =>
             destruct (String.eqb_spec strategy name) as [->|?];
             [split; [intros [=] | intros H; exfalso; intuition congruence]|]
         end.
  split; [intros _ | done].
  pose proof (not_elem_of_nil strategy). tauto.
Qed.

Lemma get_product_known product_id strategy_arg read w v w' :
  strategy_lookup (default "cache_aside" strategy_arg) read_strategies = Some read ->
  read (JInt product_id) w = (Returned v, w') ->
  get_product product_id strategy_arg w =
    (Returned (if truthy v
               then {| body := v; status := 200 |}
               else {| body := error_body "Product not found"; status := 404 |}),
     w').
Proof.
  intros Hl Hr. unfold get_product. cbv zeta. rewrite Hl.
  unfold try_except, bind. rewrite Hr. by destruct (truthy v).
Qed.

Lemma strategy_lookup_never_raises strategy read product_id :
  strategy_lookup strategy read_strategies = Some read ->
  never_raises (read product_id).
Proof.
  pose proof (read_strategies_never_raise product_id) as Hall.
  unfold read_strategies in *. simpl.
  repeat (apply Forall_cons in Hall as [? Hall]).
  repeat (destruct (String.eqb strategy _); [intros [= <-]; assumption|]).
  discriminate.
Qed.

(** X4: [GET /api/products/<id>] always answers, and never with a 500.  When
    the strategy (by default [cache_aside]) is not one of the five names
    it answers 400 and does nothing at all; otherwise it answers 200 with
    the product the read returned, or 404 "Product not found" when the
    read returned nothing, and its effect is that of the read. *)
Theorem get_product_answers (product_id : Z) (strategy_arg : option string) (w : World) :
  (strategy_lookup (default "cache_aside" strategy_arg) read_strategies = None <->
   default "cache_aside" strategy_arg
     ∉ ["cache_aside"; "read_through"; "write_through"; "write_around"; "write_back"]) /\
  exists resp,
    run (get_product product_id strategy_arg) w = Returned resp /\
    status resp <> 500 /\
    match strategy_lookup (default "cache_aside" strategy_arg) read_strategies with
    | None =>
        resp = {| body := error_body "Invalid caching strategy"; status := 400 |} /\
        exec (get_product product_id strategy_arg) w = w
    | Some read =>
        exists v, run (read (JInt product_id)) w = Returned v /\
                  exec (get_product product_id strategy_arg) w
                    = exec (read (JInt product_id)) w /\
                  resp = if truthy v
                         then {| body := v; status := 200 |}
                         else {| body := error_body "Product not found";
                                 status := 404 |}
    end.
Proof.
  split; [apply strategy_lookup_unknown|].
  destruct (strategy_lookup _ read_strategies) as [read|] eqn:Hl.
  - destruct (never_raises_returns (read (JInt product_id)) w
                (strategy_lookup_never_raises _ _ _ Hl)) as (v & w' & Hr).
    eexists. unfold run, exec.
    rewrite (get_product_known _ _ _ _ _ _ Hl Hr), Hr. simpl.
    split; [reflexivity|]. split; [by destruct (truthy v)|].
    exists v. repeat split.
  - eexists. unfold run, exec, get_product. cbv zeta. rewrite Hl. simpl.
    repeat split. discriminate.
Qed.

(** ** Latency samples *)

Lemma samples_record_time_same strategy operation t m :
  samples strategy operation (Metrics_record_time strategy operation t m)
    = (samples strategy operation m ++ [t])%list.
Proof.
  unfold samples, Metrics_record_time. simpl.
  rewrite lookup_insert_eq. simpl. rewrite lookup_insert_eq. simpl.
  destruct (operation_times m !! strategy) as [ops|] eqn:E; simpl; [done|].
  unfold empty_times.
  destruct (decide (operation = "read")) as [->|?]; [by rewrite lookup_insert_eq|].
  rewrite lookup_insert_ne by done.
  destruct (decide (operation = "write")) as [->|?]; [by rewrite lookup_insert_eq|].
  by rewrite lookup_insert_ne.
Qed.

Lemma samples_record_time_other strategy operation t m strategy' operation' :
  (strategy', operation') <> (strategy, operation) ->
  samples strategy' operation' (Metrics_record_time strategy operation t m)
    = samples strategy' operation' m.
Proof.
  intros Hne. unfold samples, Metrics_record_time. simpl.
  destruct (decide (strategy' = strategy)) as [->|Hs].
  - assert (Ho : operation <> operation') by congruence.
    rewrite lookup_insert_eq. simpl. rewrite lookup_insert_ne by done.
    destruct (operation_times m !! strategy) as [ops|] eqn:E; simpl; [done|].
    unfold empty_times.
    destruct (decide (operation' = "read")) as [->|?]; [by rewrite lookup_insert_eq|].
    rewrite lookup_insert_ne by done.
    destruct (decide (operation' = "write")) as [->|?]; [by rewrite lookup_insert_eq|].
    by rewrite lookup_insert_ne.
  - by rewrite lookup_insert_ne.
Qed.

(** X5: a decorated call that returns leaves exactly one new sample, the
    difference of the two clock readings, at the end of the list of its
    strategy and operation and touches no other list or counter; a call
    that raises leaves no sample at all, so failed operations do not
    enter the averages. *)
Theorem timer_records_one_sample {A} (strategy operation : string) (func : M A)
    (w w' : World) (r : outcome A) :
  func (tick w) = (r, w') ->
  match r with
  | Returned a =>
      run (timer strategy operation func) w = Returned a /\
      samples strategy operation (metrics (exec (timer strategy operation func) w))
        = (samples strategy operation (metrics w')
             ++ [(clock w' (clock_reads w') - clock w (clock_reads w))%Q])%list /\
      (forall strategy' operation',
          (strategy', operation') <> (strategy, operation) ->
          samples strategy' operation' (metrics (exec (timer strategy operation func) w))
            = samples strategy' operation' (metrics w')) /\
      cache_hits (metrics (exec (timer strategy operation func) w)) = cache_hits (metrics w') /\
      cache_misses (metrics (exec (timer strategy operation func) w)) = cache_misses (metrics w') /\
      db_reads (metrics (exec (timer strategy operation func) w)) = db_reads (metrics w') /\
      db_writes (metrics (exec (timer strategy operation func) w)) = db_writes (metrics w')
  | Raised e => timer strategy operation func w = (Raised e, w')
  end.
Proof.
  intros H. destruct r as [a|e].
  - unfold run, exec. rewrite (timer_returned _ _ _ _ _ _ H). cbn.
    split; [reflexivity|]. split; [apply samples_record_time_same|].
    split; [|done]. intros s' o' Hne. by apply samples_record_time_other.
  - by apply timer_raised.
Qed.

Lemma timer_records_one_sample_witness :
  samples "write_around" "write"
          (metrics (exec (write_around_write (product 3 "C" 30))
                         (fresh_world no_fault no_fault))) = [1%Q].
Proof.
  destruct (timer_records_one_sample "write_around" "write"
              (try_except (save_to_db (product 3 "C" 30) ;; ret tt)
                          (fun e => raise e) ;; ret (product 3 "C" 30))
              (fresh_world no_fault no_fault)
              (snd ((try_except (save_to_db (product 3 "C" 30) ;; ret tt)
                                (fun e => raise e) ;; ret (product 3 "C" 30))
                      (tick (fresh_world no_fault no_fault))))
              (Returned (product 3 "C" 30))) as (_ & H & _).
  - vm_compute. reflexivity.
  - unfold write_around_write. rewrite H. vm_compute. reflexivity.
Defined.

(** ** The five reads are one read *)

Lemma clock_blind_ret {A} (a : A) : clock_blind (ret a).
Proof. intros n w. reflexivity. Qed.

Lemma clock_blind_bind {A B} (m : M A) (k : A -> M B) :
  clock_blind m -> (forall a, clock_blind (k a)) -> clock_blind (bind m k).
Proof.
  intros Hm Hk n w. unfold bind. rewrite Hm.
  destruct (m w) as [[a|e] w']; simpl; [apply Hk | reflexivity].
Qed.

Lemma clock_blind_try_except {A} (m : M A) h :
  clock_blind m -> (forall e, clock_blind (h e)) -> clock_blind (try_except m h).
Proof.
  intros Hm Hh n w. unfold try_except. rewrite Hm.
  destruct (m w) as [[a|e] w']; simpl; [reflexivity | apply Hh].
Qed.

Ltac run_clock_blind :=
  let n := fresh "n" in
  let w := fresh "w" in
  intros n w; destruct_world w;
  unfold save_to_cache, save_to_cache_expiry, get_from_db, cache_key, json_dumps;
  unfold get_db;
  unfold redis_get, redis_setex, redis_delete, redis_send, set_entries,
    sqlite3_connect, sql_select, sql_send, set_pending, set_g_db,
    record_cache_hit, record_cache_miss, record_db_read, json_loads,
    bind, ret, raise, try_except, modify,
    set_metrics, set_redis, set_database, set_clock_reads;
  cbn; repeat (case_split; cbn); reflexivity.

Lemma get_from_cache_clock_blind product_id : clock_blind (get_from_cache product_id).
Proof. intros n w. apply get_from_cache_clock. Qed.

Lemma get_from_db_clock_blind product_id : clock_blind (get_from_db product_id).
Proof. run_clock_blind. Qed.

Lemma save_to_cache_clock_blind product_data : clock_blind (save_to_cache product_data).
Proof. run_clock_blind. Qed.

Lemma lookaside_read_clock_blind product_id : clock_blind (lookaside_read product_id).
Proof.
  unfold lookaside_read.
  apply clock_blind_bind; [apply get_from_cache_clock_blind | intros product].
  destruct (truthy product); [apply clock_blind_ret|].
  apply clock_blind_try_except; [|intros e; apply clock_blind_ret].
  apply clock_blind_bind; [apply get_from_db_clock_blind | intros db_product].
  apply clock_blind_try_except; [|intros e; apply clock_blind_ret].
  apply clock_blind_bind; [|intros _; apply clock_blind_ret].
  destruct (truthy_opt db_product); [|apply clock_blind_ret].
  destruct db_product; [|apply clock_blind_ret].
  apply clock_blind_bind; [apply save_to_cache_clock_blind | intros _; apply clock_blind_ret].
Qed.

Lemma same_read_lookaside product_id :
  same_read (lookaside_read product_id) (lookaside_read product_id).
Proof.
  intros n w. rewrite (lookaside_read_clock_blind product_id n w). simpl.
  split; reflexivity.
Qed.

Lemma same_read_timer strategy operation f g :
  same_read f g -> same_read (timer strategy operation f) g.
Proof.
  intros Hfg n w. destruct (Hfg (S n) w) as [Hr Ho].
  change (set_clock_reads (S n) w) with (tick (set_clock_reads n w)) in Hr, Ho.
  destruct (f (tick (set_clock_reads n w))) as [[v|e] w'] eqn:E; simpl in Hr, Ho.
  - rewrite (timer_returned _ _ _ _ _ _ E). simpl. split; [exact Hr | exact Ho].
  - rewrite (timer_raised _ _ _ _ _ _ E). simpl. split; [exact Hr | exact Ho].
Qed.

Lemma read_strategies_same_read product_id :
  Forall (fun sr => same_read (snd sr product_id) (lookaside_read product_id))
         read_strategies.
Proof.
  pose proof (same_read_lookaside product_id) as Hl.
  repeat first [apply Forall_nil_2 | apply Forall_cons_2]; simpl;
    unfold write_through_read, write_around_read, write_back_read,
      cache_aside_read, read_through_read;
    repeat apply same_read_timer; exact Hl.
Qed.

(** X6: under all five strategy names a read is the same read: started in
    the same world, the five functions return the same result and leave
    the same counters, the same cache, the same store and the same queue;
    they differ only in the latency samples they record. *)
Theorem reads_agree_across_strategies (product_id : json) (w : World) :
  Forall (fun sr =>
            run (snd sr product_id) w = run (cache_aside_read product_id) w /\
            observable (exec (snd sr product_id) w)
              = observable (exec (cache_aside_read product_id) w))
         read_strategies.
Proof.
  assert (Hca : same_read (cache_aside_read product_id) (lookaside_read product_id)).
  { apply same_read_timer, same_read_lookaside. }
  destruct (Hca (clock_reads w) w) as [Hr0 Ho0]. rewrite set_clock_reads_id in Hr0, Ho0.
  eapply Forall_impl; [apply read_strategies_same_read|].
  intros sr Hs. destruct (Hs (clock_reads w) w) as [Hr Ho].
  rewrite set_clock_reads_id in Hr, Ho.
  unfold run, exec. by rewrite Hr, Ho, Hr0, Ho0.
Qed.

(** *** Samples of the delegating reads *)

Lemma lookaside_read_same_times product_id :
  stable (same (fun w => operation_times (metrics w))) (lookaside_read product_id).
Proof.
  unfold lookaside_read, get_from_cache, invalidate_cache, get_from_db,
    save_to_cache, save_to_cache_expiry.
  stable_auto.
Qed.

Lemma lookaside_read_returns_samples product_id w :
  exists v w', lookaside_read product_id w = (Returned v, w') /\
               forall s o, samples s o (metrics w') = samples s o (metrics w).
Proof.
  destruct (never_raises_returns _ w (lookaside_read_never_raises product_id))
    as (v & w' & H).
  exists v, w'. split; [exact H|]. intros s o.
  pose proof (lookaside_read_same_times product_id w) as Hs.
  rewrite H in Hs. unfold same in Hs. simpl in Hs. unfold samples. by rewrite Hs.
Qed.

Lemma delegating_read_samples name product_id w :
  name <> "cache_aside" ->
  exists t_inner t_outer,
    samples "cache_aside" "read"
            (metrics (exec (timer name "read" (cache_aside_read product_id)) w))
      = (samples "cache_aside" "read" (metrics w) ++ [t_inner])%list /\
    samples name "read"
            (metrics (exec (timer name "read" (cache_aside_read product_id)) w))
      = (samples name "read" (metrics w) ++ [t_outer])%list.
Proof.
  intros Hname.
  destruct (lookaside_read_returns_samples product_id (tick (tick w)))
    as (v & w1 & Hl & Hsame).
  pose proof (timer_returned "cache_aside" "read" _ _ _ _ Hl) as Hin.
  pose proof (timer_returned name "read" _ _ _ _ Hin) as Hout.
  unfold exec. unfold cache_aside_read at 1 2. rewrite Hout. cbn.
  eexists _, _. split.
  - rewrite samples_record_time_other by congruence.
    rewrite samples_record_time_same. by rewrite Hsame.
  - rewrite samples_record_time_same.
    rewrite samples_record_time_other by congruence. by rewrite Hsame.
Qed.

(** X7: a read under [write_through], [write_around] or [write_back] calls
    the decorated [cache_aside_read]: besides the sample under its own
    name it leaves one under [cache_aside], so that the cache-aside read
    average also counts the reads of those three strategies. *)
Theorem delegating_reads_are_timed_twice (product_id : json) (w : World) :
  Forall (fun sr =>
            exists t_inner t_outer,
              samples "cache_aside" "read" (metrics (exec (snd sr product_id) w))
                = (samples "cache_aside" "read" (metrics w) ++ [t_inner])%list /\
              samples (fst sr) "read" (metrics (exec (snd sr product_id) w))
                = (samples (fst sr) "read" (metrics w) ++ [t_outer])%list)
         delegating_reads.
Proof.
  repeat first [apply Forall_nil_2 | apply Forall_cons_2]; simpl;
    unfold write_through_read, write_around_read, write_back_read;
    by apply delegating_read_samples.
Qed.

(** ** The three cache functions, case by case *)

(** X8: what the lookup returns and counts, by what Redis holds under the
    key.  A failing GET, an absent key and an empty text are misses;
    text that decodes is a hit, returned whatever it decodes to; text
    that does not decode is counted both as a hit and as a miss, and the
    key is deleted when the DELETE goes through. *)
Theorem get_from_cache_accounting (product_id : json) (w : World) :
  exists v, run (get_from_cache product_id) w = Returned v /\
  let w' := exec (get_from_cache product_id) w in
  if redis_fault (redis_client w) (length (redis_log (redis_client w)))
  then v = JNull /\
       cache_hits (metrics w') = cache_hits (metrics w) /\
       cache_misses (metrics w') = cache_misses (metrics w) + 1 /\
       entries (redis_client w') = entries (redis_client w)
  else match cached product_id w with
       | Some (Encoded doc) =>
           v = doc /\
           cache_hits (metrics w') = cache_hits (metrics w) + 1 /\
           cache_misses (metrics w') = cache_misses (metrics w) /\
           entries (redis_client w') = entries (redis_client w)
       | Some Garbage =>
           v = JNull /\
           cache_hits (metrics w') = cache_hits (metrics w) + 1 /\
           cache_misses (metrics w') = cache_misses (metrics w) + 1 /\
           (redis_fault (redis_client w) (S (length (redis_log (redis_client w)))) = false ->
            cached product_id w' = None)
       | Some EmptyText | None =>
           v = JNull /\
           cache_hits (metrics w') = cache_hits (metrics w) /\
           cache_misses (metrics w') = cache_misses (metrics w) + 1 /\
           entries (redis_client w') = entries (redis_client w)
       end.
Proof.
  unfold run, exec, cached. destruct_world w. unfold_cache. cbn.
  repeat (case_split; cbn); eexists; (split; [reflexivity|]); cbn;
    rewrite ?length_app in *; cbn in *; rewrite ?Nat.add_1_r in *;
    repeat split; try reflexivity; try congruence.
  all: intros _; by rewrite lookup_delete_eq.
Qed.

(** X9: [save_to_cache] refuses an empty dict or one without an ["id"] key
    before sending anything; otherwise it sends one SETEX and, when that
    goes through, the key of the record holds the record's document with
    the default TTL of 3600 s; when it fails the result is [None] and the
    key space is as before. *)
Theorem save_to_cache_outcome (product_data : dict) (w : World) :
  let w' := exec (save_to_cache product_data) w in
  let key := "product:" +:+ py_str (dict_get "id" product_data) in
  if negb (truthy (JDict product_data)) || negb (dict_contains "id" product_data)
  then save_to_cache product_data w = (Returned None, w)
  else
    redis_log (redis_client w')
      = (redis_log (redis_client w) ++ [SETEX key 3600 (Encoded (JDict product_data))])%list /\
    if redis_fault (redis_client w) (length (redis_log (redis_client w)))
    then run (save_to_cache product_data) w = Returned None /\
         entries (redis_client w') = entries (redis_client w)
    else run (save_to_cache product_data) w = Returned (Some product_data) /\
         entries (redis_client w')
           = <[key := (Encoded (JDict product_data), 3600)]> (entries (redis_client w)).
Proof.
  unfold run, exec. destruct_world w. unfold_cache. cbn.
  repeat (case_split; cbn); try discriminate; repeat split; reflexivity.
Qed.

(** X10: [invalidate_cache] answers whether the key was there: when the
    DELETE goes through, the key is gone afterwards and the result is
    [True] exactly when it held something; when the DELETE fails the
    result is [False] and the entry stays. *)
Theorem invalidate_cache_outcome (product_id : json) (w : World) :
  let w' := exec (invalidate_cache product_id) w in
  if redis_fault (redis_client w) (length (redis_log (redis_client w)))
  then run (invalidate_cache product_id) w = Returned false /\
       entries (redis_client w') = entries (redis_client w)
  else run (invalidate_cache product_id) w
         = Returned (bool_decide (is_Some (cached product_id w))) /\
       cached product_id w' = None.
Proof.
  unfold run, exec, cached. destruct_world w. unfold_cache. cbn.
  repeat (case_split; cbn); repeat split; try reflexivity.
  - by rewrite lookup_delete_eq.
  - match goal with H : _ !! _ = None |- _ => by rewrite H end.
Qed.

(** ** The store functions *)

(** X11: a failed upsert leaves the table as it was, whether it failed the
    validation, at the connection, at a statement or at the commit; and
    a record without id, name or price is refused with [ValueError]
    before any statement is sent. *)
Theorem save_to_db_failure_keeps_table (product_data : dict) (w : World) (e : exn)
    (w' : World) :
  save_to_db product_data w = (Raised e, w') ->
  products (database w') = products (database w) /\
  (is_none (dict_get "id" product_data) || is_none (dict_get "name" product_data)
   || is_none (dict_get "price" product_data) = true ->
   e = ValueError /\ database w' = database w).
Proof.
  destruct_world w. unfold_store. cbn.
  repeat (case_split; cbn); intros [= <- <-]; cbn; split; try reflexivity;
    intros; try discriminate; split; reflexivity.
Qed.

Lemma save_to_db_failure_keeps_table_witness :
  run (save_to_db (product 1 "A" 10)) (fresh_world no_fault (fault_at 3))
    = Raised SqliteError /\
  products (database (exec (save_to_db (product 1 "A" 10))
                           (fresh_world no_fault (fault_at 3)))) = ∅.
Proof.
  destruct (save_to_db_failure_keeps_table (product 1 "A" 10)
              (fresh_world no_fault (fault_at 3)) SqliteError
              (snd (save_to_db (product 1 "A" 10) (fresh_world no_fault (fault_at 3)))))
    as [H _].
  - vm_compute. reflexivity.
  - split; [vm_compute; reflexivity|]. unfold exec. rewrite H. reflexivity.
Defined.

(** With SQLite reliable, the store read of an integer id returns the
    row under that id as a four-key dict, or [None]. *)
Lemma get_from_db_reliable product_id k w :
  sql_key product_id = Some k -> store_reliable w ->
  run (get_from_db product_id) w
    = Returned (row_to_dict k <$> products (database w) !! k).
Proof.
  intros Hk Hrel.
  assert (Bid : bindable product_id = true) by (by destruct product_id).
  unfold store_reliable in Hrel.
  unfold run. destruct_world w. unfold_store. cbn in *.
  rewrite Hk, Bid. cbn.
  repeat (case_split; cbn; rewrite ?Hrel in *; cbn in * );
    try discriminate; simplify_eq; reflexivity.
Qed.

(** X12: upsert then read back: for a storable record and a reliable
    SQLite, [save_to_db] returns the record, changes no row but the
    record's, and a [get_from_db] of the id that follows returns the
    four columns as the table holds them: an integer price as the float
    of that value, [-0.0] as [0.0], a missing description as [None], any
    other key of the record dropped. *)
Theorem save_to_db_then_get_from_db (product_data : dict) (k : Z) (w : World) :
  storable product_data k -> store_reliable w ->
  exists w1,
    save_to_db product_data w = (Returned product_data, w1) /\
    (forall k', k' <> k ->
                products (database w1) !! k' = products (database w) !! k') /\
    run (get_from_db (dict_get "id" product_data)) w1
      = Returned (Some [("id", JInt k);
                        ("name", column_value TEXT (dict_get "name" product_data));
                        ("price", column_value REAL (dict_get "price" product_data));
                        ("description",
                         column_value TEXT (dict_get "description" product_data))]).
Proof.
  intros Hst Hrel.
  pose proof (save_to_db_succeeds product_data k w Hst Hrel) as Hrun.
  unfold run in Hrun.
  destruct (save_to_db product_data w) as [r w1] eqn:Hsave. simpl in Hrun. subst r.
  exists w1. split; [reflexivity|].
  destruct Hst as (Hk & _).
  split.
  - intros k' Hne.
    pose proof (save_to_db_other_rows product_data k') as Ho.
    specialize (Ho ltac:(congruence) w). unfold same in Ho. by rewrite Hsave in Ho.
  - destruct (save_to_db_returned _ _ _ _ Hsave) as (_ & k0 & Hk0 & Hrow).
    rewrite Hk in Hk0. injection Hk0 as <-.
    rewrite (get_from_db_reliable _ k w1 Hk).
    + rewrite Hrow. reflexivity.
    + intros n. pose proof (save_to_db_same_faults product_data w) as Hf.
      rewrite Hsave in Hf. unfold same in Hf. simpl in Hf. rewrite Hf. apply Hrel.
Qed.

Lemma save_to_db_then_get_from_db_witness :
  run (get_from_db (JInt 1))
      (exec (save_to_db (("note", JStr "x") :: product 1 "A" 10))
            (fresh_world no_fault no_fault))
    = Returned (Some [("id", JInt 1); ("name", JStr "A"); ("price", JFloat "10.0");
                      ("description", JNull)]).
Proof.
  destruct (save_to_db_then_get_from_db (("note", JStr "x") :: product 1 "A" 10) 1
              (fresh_world no_fault no_fault)) as (w1 & Hs & _ & Hg).
  - repeat split; try reflexivity. discriminate.
  - intros n. reflexivity.
  - unfold exec. rewrite Hs. exact Hg.
Defined.

(** ** Reads and writes together *)

Lemma read_strategies_transfer product_id w
    (P : outcome json -> Z * Z * Z * Z * Redis * Sqlite * Queue * bool * option bool -> Prop) :
  P (fst (lookaside_read product_id w)) (observable (snd (lookaside_read product_id w))) ->
  Forall (fun sr => P (run (snd sr product_id) w)
                      (observable (exec (snd sr product_id) w)))
         read_strategies.
Proof.
  intros HP. eapply Forall_impl; [apply (read_strategies_same_read product_id)|].
  intros sr Hs. destruct (Hs (clock_reads w) w) as [Hr Ho].
  rewrite set_clock_reads_id in Hr, Ho. unfold run, exec. by rewrite Hr, Ho.
Qed.

Ltac unfold_lookaside :=
  unfold lookaside_read, truthy_opt, opt_json, row_to_dict;
  unfold get_from_db, get_from_cache, invalidate_cache, save_to_cache,
    save_to_cache_expiry, cache_key, json_dumps;
  unfold get_db;
  unfold redis_get, redis_setex, redis_delete, redis_send, set_entries,
    sqlite3_connect, sql_select, sql_send, set_pending, set_g_db,
    record_cache_hit, record_cache_miss, record_db_read, json_loads,
    bind, ret, raise, try_except, modify,
    set_metrics, set_redis, set_database.

Lemma lookaside_read_miss_reliable k w :
  cached (JInt k) w = None -> cache_reliable w -> store_reliable w ->
  fst (lookaside_read (JInt k) w)
    = Returned (opt_json (row_to_dict k <$> products (database w) !! k)) /\
  cached (JInt k) (snd (lookaside_read (JInt k) w))
    = (fun r => Encoded (JDict (row_to_dict k r))) <$> products (database w) !! k /\
  cache_hits (metrics (snd (lookaside_read (JInt k) w))) = cache_hits (metrics w) /\
  cache_misses (metrics (snd (lookaside_read (JInt k) w))) = cache_misses (metrics w) + 1 /\
  db_reads (metrics (snd (lookaside_read (JInt k) w))) = db_reads (metrics w) + 1 /\
  products (database (snd (lookaside_read (JInt k) w))) = products (database w).
Proof.
  unfold cached, cache_reliable, store_reliable.
  destruct_world w. cbn. intros Hc Hr Hs.
  unfold_lookaside. cbn in *.
  match type of Hc with
  | fst <$> ?l = None => destruct l as [p|] eqn:E; [discriminate|]
  end.
  rewrite ?Hr, ?Hs, ?E. cbn.
  repeat (case_split; cbn in *; rewrite ?Hr, ?Hs, ?E in *; cbn in * );
    try discriminate; simplify_eq;
    rewrite ?lookup_insert_eq; repeat split; try reflexivity; try done.
Qed.

(** X13: a read of an integer id that misses the cache, with Redis and SQLite
    both reliable: under each strategy the read counts one miss and one
    store read and returns the row of the table as a four-key dict, which
    it leaves in the cache under the id's key; when the table has no such
    row it returns [None] and caches nothing, so that the next read of
    the absent id goes to the store again. *)
Theorem read_miss_populates_cache (k : Z) (w : World) :
  cached (JInt k) w = None -> cache_reliable w -> store_reliable w ->
  Forall (fun sr =>
            run (snd sr (JInt k)) w
              = Returned (opt_json (row_to_dict k <$> products (database w) !! k)) /\
            cached (JInt k) (exec (snd sr (JInt k)) w)
              = (fun r => Encoded (JDict (row_to_dict k r))) <$> products (database w) !! k /\
            cache_hits (metrics (exec (snd sr (JInt k)) w)) = cache_hits (metrics w) /\
            cache_misses (metrics (exec (snd sr (JInt k)) w)) = cache_misses (metrics w) + 1 /\
            db_reads (metrics (exec (snd sr (JInt k)) w)) = db_reads (metrics w) + 1 /\
            products (database (exec (snd sr (JInt k)) w)) = products (database w))
         read_strategies.
Proof.
  intros Hc Hr Hs.
  pose proof (lookaside_read_miss_reliable k w Hc Hr Hs) as Hl.
  eapply Forall_impl.
  - apply (read_strategies_transfer (JInt k) w
             (fun r o =>
                match o with
                | (h, m, dr, _, rc, db, _, _, _) =>
                    r = Returned (opt_json (row_to_dict k <$> products (database w) !! k)) /\
                    fst <$> entries rc !! ("product:" +:+ py_str (JInt k))
                      = (fun r => Encoded (JDict (row_to_dict k r)))
                          <$> products (database w) !! k /\
                    h = cache_hits (metrics w) /\
                    m = cache_misses (metrics w) + 1 /\
                    dr = db_reads (metrics w) + 1 /\
                    products db = products (database w)
                end)).
    exact Hl.
  - intros sr H. exact H.
Qed.

Lemma read_miss_populates_cache_witness :
  Forall (fun sr =>
            run (snd sr (JInt 3))
                (exec (write_around_write (product 3 "C" 30)) (fresh_world no_fault no_fault))
              = Returned (JDict [("id", JInt 3); ("name", JStr "C"); ("price", JFloat "30.0");
                                 ("description", JNull)]))
         read_strategies.
Proof.
  eapply Forall_impl.
  - apply (read_miss_populates_cache 3
             (exec (write_around_write (product 3 "C" 30)) (fresh_world no_fault no_fault))).
    + vm_compute. reflexivity.
    + intros n. reflexivity.
    + intros n. reflexivity.
  - intros sr (H & _). rewrite H. vm_compute. reflexivity.
Defined.

Lemma lookaside_read_cache_outage k w :
  cache_unreachable w -> store_reliable w ->
  fst (lookaside_read (JInt k) w)
    = Returned (opt_json (row_to_dict k <$> products (database w) !! k)) /\
  entries (redis_client (snd (lookaside_read (JInt k) w))) = entries (redis_client w) /\
  cache_hits (metrics (snd (lookaside_read (JInt k) w))) = cache_hits (metrics w) /\
  cache_misses (metrics (snd (lookaside_read (JInt k) w))) = cache_misses (metrics w) + 1 /\
  db_reads (metrics (snd (lookaside_read (JInt k) w))) = db_reads (metrics w) + 1.
Proof.
  unfold cache_unreachable, store_reliable.
  destruct_world w. cbn. intros Hr Hs.
  unfold_lookaside. cbn in *.
  rewrite ?Hr, ?Hs. cbn.
  repeat (case_split; cbn in *; rewrite ?Hr, ?Hs in *; cbn in * );
    try discriminate; simplify_eq; repeat split; try reflexivity; try done.
Qed.

(** X14: with Redis unreachable (every command fails) and SQLite reliable,
    each read still answers from the store: it counts a miss, returns the
    row of the table (or [None]), raises nothing and leaves the key space
    as it was. *)
Theorem reads_survive_cache_outage (k : Z) (w : World) :
  cache_unreachable w -> store_reliable w ->
  Forall (fun sr =>
            run (snd sr (JInt k)) w
              = Returned (opt_json (row_to_dict k <$> products (database w) !! k)) /\
            entries (redis_client (exec (snd sr (JInt k)) w)) = entries (redis_client w) /\
            cache_hits (metrics (exec (snd sr (JInt k)) w)) = cache_hits (metrics w) /\
            cache_misses (metrics (exec (snd sr (JInt k)) w)) = cache_misses (metrics w) + 1 /\
            db_reads (metrics (exec (snd sr (JInt k)) w)) = db_reads (metrics w) + 1)
         read_strategies.
Proof.
  intros Hr Hs.
  pose proof (lookaside_read_cache_outage k w Hr Hs) as Hl.
  eapply Forall_impl.
  - apply (read_strategies_transfer (JInt k) w
             (fun r o =>
                match o with
                | (h, m, dr, _, rc, _, _, _, _) =>
                    r = Returned (opt_json (row_to_dict k <$> products (database w) !! k)) /\
                    entries rc = entries (redis_client w) /\
                    h = cache_hits (metrics w) /\
                    m = cache_misses (metrics w) + 1 /\
                    dr = db_reads (metrics w) + 1
                end)).
    exact Hl.
  - intros sr H. exact H.
Qed.

Lemma reads_survive_cache_outage_witness :
  Forall (fun sr =>
            run (snd sr (JInt 3)) cache_outage_world
              = Returned (JDict [("id", JInt 3); ("name", JStr "C"); ("price", JFloat "30.0");
                                 ("description", JNull)]))
         read_strategies.
Proof.
  eapply Forall_impl.
  - apply (reads_survive_cache_outage 3 cache_outage_world).
    + intros n. reflexivity.
    + intros n. reflexivity.
  - intros sr (H & _). rewrite H. vm_compute. reflexivity.
Defined.

(** ** What a read sees after a write *)

Lemma dict_get_int_contains (product_data : dict) k :
  dict_get "id" product_data = JInt k ->
  dict_contains "id" product_data = true /\ truthy (JDict product_data) = true.
Proof.
  unfold dict_get, dict_contains.
  destruct (dict_lookup "id" product_data) eqn:E; simpl; [|discriminate].
  intros _. split; [reflexivity|]. by destruct product_data.
Qed.

Lemma save_to_cache_reliable product_data w :
  cache_reliable w ->
  dict_contains "id" product_data = true -> truthy (JDict product_data) = true ->
  exists w2,
    save_to_cache product_data w = (Returned (Some product_data), w2) /\
    entries (redis_client w2)
      = <["product:" +:+ py_str (dict_get "id" product_data)
          := (Encoded (JDict product_data), 3600)]> (entries (redis_client w)) /\
    redis_fault (redis_client w2) = redis_fault (redis_client w) /\
    database w2 = database w /\ write_back_queue w2 = write_back_queue w /\
    metrics w2 = metrics w.
Proof.
  unfold cache_reliable. destruct_world w. cbn. intros Hr Hc Ht.
  unfold_cache. cbn. rewrite Hc, Ht. cbn. rewrite Hr. cbn.
  eexists. repeat split.
Qed.

Lemma get_from_cache_cached_hit product_id v w :
  cached product_id w = Some (Encoded v) -> next_redis_ok w ->
  run (get_from_cache product_id) w = Returned v.
Proof.
  unfold cached, next_redis_ok, run. destruct_world w. cbn. intros Hc Hr.
  unfold_cache. cbn in *. rewrite Hr. cbn.
  destruct (ents !! _) as [[p ttl]|]; simpl in Hc; [|discriminate].
  injection Hc as ->. reflexivity.
Qed.

Lemma get_from_cache_frame product_id w1 w2 :
  redis_client w1 = redis_client w2 ->
  run (get_from_cache product_id) w1 = run (get_from_cache product_id) w2.
Proof.
  destruct_world w1. destruct w2 as [? [? ? ?] ? ? ? ? ? ?].
  cbn. intros [= -> -> ->].
  unfold run. unfold_cache. cbn.
  repeat (case_split; cbn); reflexivity.
Qed.

(** X15: after a write-through of a storable record with an integer id,
    with Redis and SQLite reliable, the record's row is in the table and
    its document is in the cache, and a read of the id under any
    strategy returns the record as written, from the cache: SQLite is
    not sent a single statement. *)
Theorem write_through_then_read (product_data : dict) (k : Z) (w : World) :
  dict_get "id" product_data = JInt k -> storable product_data k ->
  cache_reliable w -> store_reliable w ->
  run (write_through_write product_data) w = Returned product_data /\
  cached (JInt k) (exec (write_through_write product_data) w)
    = Some (Encoded (JDict product_data)) /\
  products (database (exec (write_through_write product_data) w)) !! k
    = Some (row_of product_data) /\
  Forall (fun sr =>
            run (snd sr (JInt k)) (exec (write_through_write product_data) w)
              = Returned (JDict product_data) /\
            database (exec (snd sr (JInt k)) (exec (write_through_write product_data) w))
              = database (exec (write_through_write product_data) w))
         read_strategies.
Proof.
  intros Hid Hst Hcr Hsr.
  destruct (dict_get_int_contains _ _ Hid) as [Hc Ht].
  pose proof (save_to_db_succeeds product_data k (tick w) Hst Hsr) as Hrun.
  unfold run in Hrun.
  destruct (save_to_db product_data (tick w)) as [r w1] eqn:Hdb. simpl in Hrun. subst r.
  pose proof (save_to_db_same_cache product_data (tick w)) as Hsame.
  rewrite Hdb in Hsame. unfold same in Hsame. simpl in Hsame.
  assert (Hcr1 : cache_reliable w1).
  { intros n. rewrite Hsame. apply Hcr. }
  destruct (save_to_cache_reliable product_data w1 Hcr1 Hc Ht)
    as (w2 & Hsc & Hent & Hflt & Hdb2 & _ & _).
  assert (Hbody :
    (try_except
       (save_to_db product_data ;;
        saved_cache <- save_to_cache product_data ;;
        if truthy_opt saved_cache then ret tt else ret tt)
       (fun e => raise e) ;;
     ret product_data) (tick w) = (Returned product_data, w2)).
  { unfold bind at 1.
    rewrite (try_except_returned _ _ (tick w) tt w2); [reflexivity|].
    rewrite (bind_returned _ _ _ _ _ Hdb).
    rewrite (bind_returned _ _ _ _ _ Hsc). by destruct (truthy_opt _). }
  unfold run, exec, write_through_write.
  rewrite (timer_returned _ _ _ _ _ _ Hbody). cbn [fst snd].
  set (w' := set_metrics _ (tick w2)).
  assert (Hcached : cached (JInt k) w' = Some (Encoded (JDict product_data))).
  { unfold cached. cbn. rewrite Hent, Hid. cbn. by rewrite lookup_insert_eq. }
  split; [reflexivity|]. split; [exact Hcached|]. split.
  - cbn. rewrite Hdb2.
    destruct (save_to_db_returned _ _ _ _ Hdb) as (_ & k0 & Hk0 & Hrow).
    destruct Hst as (Hk & _). rewrite Hk in Hk0. by injection Hk0 as <-.
  - assert (Hget : run (get_from_cache (JInt k)) w' = Returned (JDict product_data)).
    { apply get_from_cache_cached_hit; [exact Hcached|].
      unfold next_redis_ok. cbn. rewrite Hflt, Hsame. apply Hcr. }
    eapply Forall_impl; [apply (read_strategies_serve_hit _ _ _ Hget Ht)|].
    intros sr Hs. destruct (Hs (clock_reads w')) as (wf & Hwf & _ & _ & _ & _ & Hd).
    rewrite set_clock_reads_id in Hwf. rewrite Hwf. simpl. split; [reflexivity | exact Hd].
Qed.

Lemma write_through_then_read_witness :
  Forall (fun sr =>
            run (snd sr (JInt 1)) after_write_through
              = Returned (JDict (product 1 "A" 10)))
         read_strategies /\
  products (database after_write_through) !! 1
    = Some {| row_name := JStr "A"; row_price := JFloat "10.0";
              row_description := JNull |}.
Proof.
  destruct (write_through_then_read (product 1 "A" 10) 1 (fresh_world no_fault no_fault))
    as (_ & _ & Hrow & H).
  - reflexivity.
  - repeat split; try reflexivity. discriminate.
  - intros n. reflexivity.
  - intros n. reflexivity.
  - split; [|exact Hrow].
    eapply Forall_impl; [exact H|]. intros sr [Hr _]. exact Hr.
Defined.

(** X16: a write-around write leaves stale reads behind: when the cache
    answers a lookup of an id with a value, it answers the same after any
    write-around write, of whatever record and with whatever outcome, and
    each read of the id still returns that old value. *)
Theorem write_around_then_read_is_stale
    (product_id v : json) (product_data : dict) (w : World) :
  run (get_from_cache product_id) w = Returned v -> truthy v = true ->
  Forall (fun sr =>
            run (snd sr product_id) (exec (write_around_write product_data) w)
              = Returned v)
         read_strategies.
Proof.
  intros Hget Ht.
  set (w' := exec (write_around_write product_data) w).
  assert (Hget' : run (get_from_cache product_id) w' = Returned v).
  { rewrite <- Hget. apply get_from_cache_frame.
    apply (write_around_write_same_cache product_data w). }
  eapply Forall_impl; [apply (read_strategies_serve_hit _ _ _ Hget' Ht)|].
  intros sr Hs. destruct (Hs (clock_reads w')) as (wf & Hwf & _).
  rewrite set_clock_reads_id in Hwf. unfold run. by rewrite Hwf.
Qed.

Lemma write_around_then_read_is_stale_witness :
  Forall (fun sr =>
            run (snd sr (JInt 1))
                (exec (write_around_write product_1_updated) after_write_through)
              = Returned (JDict (product 1 "A" 10)))
         read_strategies.
Proof.
  apply (write_around_then_read_is_stale (JInt 1) (JDict (product 1 "A" 10))
           product_1_updated after_write_through).
  - vm_compute. reflexivity.
  - reflexivity.
Defined.

Lemma write_back_write_reliable product_data w :
  cache_reliable w ->
  dict_contains "id" product_data = true -> truthy (JDict product_data) = true ->
  exists w2,
    save_to_cache product_data (tick w) = (Returned (Some product_data), w2) /\
    write_back_write product_data w =
      (Returned product_data,
       set_metrics
         (Metrics_record_time "write_back" "write"
            (clock w2 (clock_reads w2) - clock w (clock_reads w))%Q)
         (tick (exec (queue_put product_data) w2))).
Proof.
  intros Hcr Hc Ht.
  destruct (save_to_cache_reliable product_data (tick w) Hcr Hc Ht) as (w2 & Hsc & _).
  exists w2. split; [exact Hsc|].
  unfold write_back_write.
  assert (Hbody :
    (saved_cache <- save_to_cache product_data ;;
     (if truthy_opt saved_cache
      then try_except (queue_put product_data)
                      (fun e => invalidate_cache (dict_get "id" product_data) ;; raise e)
      else raise IOError) ;;
     ret product_data) (tick w)
    = (Returned product_data, exec (queue_put product_data) w2)).
  { rewrite (bind_returned _ _ _ _ _ Hsc).
    replace (truthy_opt (Some product_data)) with true by (symmetry; exact Ht).
    reflexivity. }
  rewrite (timer_returned _ _ _ _ _ _ Hbody). reflexivity.
Qed.

(** X17: a write-back write of a record with an integer id, Redis being
    reliable, returns at once: the record's document is in the cache and
    the record is at the tail of the queue with one more unfinished task,
    while SQLite has not been sent anything.  From then on each read of
    the id returns the record from the cache, before it is durable. *)
Theorem write_back_then_read (product_data : dict) (k : Z) (w : World) :
  dict_get "id" product_data = JInt k -> cache_reliable w ->
  run (write_back_write product_data) w = Returned product_data /\
  database (exec (write_back_write product_data) w) = database w /\
  queue_items (write_back_queue (exec (write_back_write product_data) w))
    = (queue_items (write_back_queue w) ++ [product_data])%list /\
  unfinished_tasks (write_back_queue (exec (write_back_write product_data) w))
    = unfinished_tasks (write_back_queue w) + 1 /\
  cached (JInt k) (exec (write_back_write product_data) w)
    = Some (Encoded (JDict product_data)) /\
  Forall (fun sr =>
            run (snd sr (JInt k)) (exec (write_back_write product_data) w)
              = Returned (JDict product_data) /\
            database (exec (snd sr (JInt k)) (exec (write_back_write product_data) w))
              = database w)
         read_strategies.
Proof.
  intros Hid Hcr.
  destruct (dict_get_int_contains _ _ Hid) as [Hc Ht].
  destruct (save_to_cache_reliable product_data (tick w) Hcr Hc Ht)
    as (w2 & Hsc & Hent & Hflt & Hdb2 & Hq2 & _).
  destruct (write_back_write_reliable product_data w Hcr Hc Ht) as (w2' & Hsc' & Hwb).
  rewrite Hsc in Hsc'. injection Hsc' as <-.
  unfold run, exec. rewrite Hwb. cbn [fst snd].
  set (w' := set_metrics _ _).
  assert (Hcached : cached (JInt k) w' = Some (Encoded (JDict product_data))).
  { unfold cached. cbn. rewrite Hent, Hid. cbn. by rewrite lookup_insert_eq. }
  assert (Hdb : database w' = database w) by (cbn; exact Hdb2).
  split; [reflexivity|]. split; [exact Hdb|].
  split; [cbn; by rewrite Hq2|]. split; [cbn; by rewrite Hq2|].
  split; [exact Hcached|].
  assert (Hget : run (get_from_cache (JInt k)) w' = Returned (JDict product_data)).
  { apply get_from_cache_cached_hit; [exact Hcached|].
    unfold next_redis_ok. cbn. rewrite Hflt. apply Hcr. }
  eapply Forall_impl; [apply (read_strategies_serve_hit _ _ _ Hget Ht)|].
  intros sr Hs. destruct (Hs (clock_reads w')) as (wf & Hwf & _ & _ & _ & _ & Hd).
  rewrite set_clock_reads_id in Hwf. rewrite Hwf. simpl.
  split; [reflexivity | by rewrite Hd].
Qed.

Lemma write_back_then_read_witness :
  products (database (after_write_back no_fault)) !! 2 = None /\
  Forall (fun sr =>
            run (snd sr (JInt 2)) (after_write_back no_fault)
              = Returned (JDict (product 2 "B" 20)))
         read_strategies.
Proof.
  destruct (write_back_then_read (product 2 "B" 20) 2
              (exec start_write_back_thread (fresh_world no_fault no_fault)))
    as (_ & Hdb & _ & _ & _ & H).
  - reflexivity.
  - intros n. reflexivity.
  - split; [unfold after_write_back; rewrite Hdb; reflexivity|].
    eapply Forall_impl; [exact H|]. intros sr [Hr _]. exact Hr.
Defined.

Lemma invalidate_cache_effect product_id w :
  database (exec (invalidate_cache product_id) w) = database w /\
  if redis_fault (redis_client w) (length (redis_log (redis_client w)))
  then entries (redis_client (exec (invalidate_cache product_id) w))
       = entries (redis_client w)
  else cached product_id (exec (invalidate_cache product_id) w) = None.
Proof.
  unfold exec, cached. destruct_world w. unfold_cache. cbn.
  repeat (case_split; cbn); split; try reflexivity.
  - by rewrite lookup_delete_eq.
  - match goal with H : _ !! _ = None |- _ => by rewrite H end.
Qed.

Lemma invalidating_write_returned product_data w r w1 :
  save_to_db product_data w = (Returned r, w1) ->
  invalidating_write product_data w
    = (Returned product_data, exec (invalidate_cache (dict_get "id" product_data)) w1).
Proof.
  intros Hdb. unfold invalidating_write, exec.
  destruct (never_raises_returns _ w1
              (invalidate_cache_never_raises (dict_get "id" product_data)))
    as (b & w2 & Hinv).
  unfold bind at 1.
  rewrite (try_except_returned _ _ w tt w2); [by rewrite Hinv|].
  rewrite (bind_returned _ _ _ _ _ Hdb).
  by rewrite (bind_returned _ _ _ _ _ Hinv).
Qed.

(** X18: when the store upsert of a cache-aside or read-through write
    succeeds, the write returns the record and the store keeps the row;
    the cache entry of the id is gone if the DELETE went through, and if
    Redis refused the DELETE the write returns all the same, leaving the
    old entry in the cache. *)
Theorem invalidating_writes_on_store_success
    (product_data r : dict) (w w1 : World) :
  save_to_db product_data (tick w) = (Returned r, w1) ->
  Forall (fun sw =>
            run (snd sw product_data) w = Returned product_data /\
            database (exec (snd sw product_data) w) = database w1 /\
            if redis_fault (redis_client w) (length (redis_log (redis_client w)))
            then entries (redis_client (exec (snd sw product_data) w))
                 = entries (redis_client w)
            else cached (dict_get "id" product_data) (exec (snd sw product_data) w) = None)
         [("cache_aside", cache_aside_write); ("read_through", read_through_write)].
Proof.
  intros Hdb.
  pose proof (invalidating_write_returned _ _ _ _ Hdb) as Hbody.
  pose proof (save_to_db_same_cache product_data (tick w)) as Hsame.
  rewrite Hdb in Hsame. unfold same in Hsame. simpl in Hsame.
  change (redis_client (tick w)) with (redis_client w) in Hsame.
  destruct (invalidate_cache_effect (dict_get "id" product_data) w1) as [Hd He].
  rewrite Hsame in He.
  repeat first [apply Forall_nil_2 | apply Forall_cons_2]; simpl;
    unfold run, exec, cache_aside_write, read_through_write;
    rewrite (timer_returned _ _ _ _ _ _ Hbody); cbn [fst snd];
    (split; [reflexivity|]); (split; [exact Hd|]);
    destruct (redis_fault _ _); exact He.
Qed.

Lemma invalidating_writes_on_store_success_witness :
  run (cache_aside_write product_1_updated) after_write_through
    = Returned product_1_updated /\
  cached (JInt 1) (exec (cache_aside_write product_1_updated) after_write_through) = None.
Proof.
  pose proof (invalidating_writes_on_store_success product_1_updated product_1_updated
                after_write_through
                (snd (save_to_db product_1_updated (tick after_write_through)))) as H.
  apply Forall_cons in H as [(Hr & _ & Hc) _].
  - split; [exact Hr | exact Hc].
  - vm_compute. reflexivity.
Defined.

(** ** Cache keys of different records *)

(** X19: distinct integer ids have distinct cache keys, so what the engine
    does for one record (any of the five reads, any of the five writes)
    leaves the cache entry of every other integer id as it was. *)
Theorem integer_ids_do_not_share_cache_entries
    (a b : Z) (product_data : dict) (w : World) :
  a <> b ->
  "product:" +:+ py_str (JInt a) <> "product:" +:+ py_str (JInt b) /\
  Forall (fun sr => cached (JInt b) (exec (snd sr (JInt a)) w) = cached (JInt b) w)
         read_strategies /\
  (dict_get "id" product_data = JInt a ->
   Forall (fun sw => cached (JInt b) (exec (snd sw product_data) w) = cached (JInt b) w)
          write_strategies).
Proof.
  intros Hab.
  assert (Hkey : "product:" +:+ pretty b <> "product:" +:+ pretty a).
  { intros H. simpl in H. injection H as H.
    apply Hab. symmetry. by apply (inj pretty). }
  split; [simpl; intros H; apply Hkey; by rewrite H|].
  split.
  - eapply Forall_impl; [apply (read_strategies_touch_only a)|].
    intros sr Hs. destruct (Hs w) as [_ He]. unfold cached, exec. simpl.
    by rewrite (He _ Hkey).
  - intros Hid.
    eapply Forall_impl; [apply (write_strategies_touch_only product_data)|].
    intros sw Hs. destruct (Hs w) as [_ He]. unfold cached, exec.
    rewrite Hid in He. simpl in *. by rewrite (He _ Hkey).
Qed.

Lemma integer_ids_do_not_share_cache_entries_witness :
  cached (JInt 1) (exec (cache_aside_write (product 2 "B" 20)) after_write_through)
    = Some (Encoded (JDict (product 1 "A" 10))).
Proof.
  destruct (integer_ids_do_not_share_cache_entries 2 1 (product 2 "B" 20)
              after_write_through) as (_ & _ & H).
  - lia.
  - specialize (H eq_refl). apply Forall_cons in H as [H _].
    simpl in H. rewrite H. vm_compute. reflexivity.
Defined.

(** ** The pipeline: what else the worker does and does not do *)

(** X20: an item that fails the worker's validation is marked done twice,
    once before the [continue] and once by the [finally] clause: with at
    least two unfinished tasks the counter drops by two, the item is
    dropped uncommitted though counted as a store write, and when the
    counter was two [queue.join()] returns at once although the rest of
    the queue has not been processed. *)
Theorem invalid_item_marks_two_tasks_done (item : dict) (rest : list dict) (w : World) :
  queue_items (write_back_queue w) = item :: rest ->
  is_none (dict_get "id" item) || is_none (dict_get "name" item)
  || is_none (dict_get "price" item) = true ->
  sqlite_fault (database w) (length (sql_log (database w))) = false ->
  2 <= unfinished_tasks (write_back_queue w) ->
  queue_items (write_back_queue (exec worker_iteration w)) = rest /\
  unfinished_tasks (write_back_queue (exec worker_iteration w))
    = unfinished_tasks (write_back_queue w) - 2 /\
  products (database (exec worker_iteration w)) = products (database w) /\
  db_writes (metrics (exec worker_iteration w)) = db_writes (metrics w) + 1 /\
  (unfinished_tasks (write_back_queue w) = 2 ->
   forall fuel,
     queue_join fuel (exec worker_iteration w) = (Returned true, exec worker_iteration w)).
Proof.
  unfold exec. destruct_world w. cbn. intros -> Hinv Hok Hu.
  unfold_worker. cbn. rewrite Hok. cbn. rewrite Hinv. cbn.
  assert (H1 : (unfin - 1 <? 0) = false) by lia.
  assert (H2 : (unfin - 1 - 1 <? 0) = false) by lia.
  rewrite H1. cbn. rewrite H2. cbn.
  repeat split; try lia.
  intros -> fuel. destruct fuel; reflexivity.
Qed.

Lemma invalid_item_marks_two_tasks_done_witness :
  unfinished_tasks (write_back_queue (exec worker_iteration queue_with_invalid_item)) = 0 /\
  queue_items (write_back_queue (exec worker_iteration queue_with_invalid_item))
    = [product 2 "B" 20].
Proof.
  destruct (invalid_item_marks_two_tasks_done
              [("id", JInt 7); ("name", JNull); ("price", JInt 1)]
              [product 2 "B" 20] queue_with_invalid_item)
    as (Hq & Hu & _).
  - vm_compute. reflexivity.
  - reflexivity.
  - vm_compute. reflexivity.
  - vm_compute. discriminate.
  - split; [rewrite Hu; vm_compute; reflexivity | exact Hq].
Defined.

Lemma worker_iteration_same_cache : stable (same redis_client) worker_iteration.
Proof. unfold worker_iteration, persist_item. stable_auto. Qed.

Lemma worker_runs_cache n w : redis_client (worker_runs n w) = redis_client w.
Proof.
  revert w. induction n as [|n IH]; intros w; simpl; [reflexivity|].
  rewrite IH. apply worker_iteration_same_cache.
Qed.

Lemma process_write_back_queue_same_cache fuel :
  stable (same redis_client) (process_write_back_queue fuel).
Proof.
  induction fuel as [|fuel IH]; intros w; simpl;
    destruct (loop_condition w); try reflexivity.
  unfold bind. rewrite worker_iteration_eq. unfold same in *.
  rewrite IH. apply worker_iteration_same_cache.
Qed.

Lemma queue_join_same_cache fuel : stable (same redis_client) (queue_join fuel).
Proof.
  induction fuel as [|fuel IH]; intros w; simpl;
    repeat (case_split; try reflexivity).
  unfold bind. rewrite worker_iteration_eq. unfold same in *.
  rewrite IH. apply worker_iteration_same_cache.
Qed.

(** X21: the pipeline never talks to Redis: neither the worker loop nor
    [stop] sends a command or changes a key.  The cache therefore keeps
    what [write_back_write] put there even for an item the worker
    dropped. *)
Theorem pipeline_never_touches_cache (fuel join_fuel patience : nat) (w : World) :
  redis_client (exec worker_iteration w) = redis_client w /\
  redis_client (exec (process_write_back_queue fuel) w) = redis_client w /\
  redis_client (exec (stop_write_back_thread join_fuel patience) w) = redis_client w /\
  redis_client (exec start_write_back_thread w) = redis_client w.
Proof.
  split; [apply worker_iteration_same_cache|].
  split; [apply process_write_back_queue_same_cache|].
  split.
  - unfold exec, stop_write_back_thread.
    repeat (case_split; try reflexivity).
    unfold bind at 1, modify at 1. unfold bind at 1.
    pose proof (queue_join_same_cache join_fuel (set_running false w)) as Hj.
    destruct (queue_join join_fuel (set_running false w)) as [[[]|e] w1];
      unfold same in Hj; simpl in Hj; try exact Hj.
    unfold bind at 1. destruct (thread_alive w1).
    + unfold bind at 1.
      pose proof (process_write_back_queue_same_cache patience w1) as Hp.
      destruct (process_write_back_queue patience w1) as [[b|e] w2];
        unfold same in Hp; simpl in Hp; simpl; congruence.
    + simpl. exact Hj.
  - unfold exec, start_write_back_thread. repeat (case_split; try reflexivity).
Qed.

(** X22: while the running flag is up the worker never returns, however long
    it runs and whatever is or is not in the queue. *)
Theorem running_worker_never_returns (fuel : nat) (w : World) :
  write_back_running w = true ->
  run (process_write_back_queue fuel) w = Returned false /\
  write_back_running (exec (process_write_back_queue fuel) w) = true /\
  write_back_thread (exec (process_write_back_queue fuel) w) = write_back_thread w.
Proof.
  revert w. induction fuel as [|fuel IH]; intros w Hrun; unfold run, exec; simpl;
    unfold loop_condition; rewrite Hrun; simpl; [done|].
  unfold bind. rewrite worker_iteration_eq.
  pose proof (worker_iteration_same_running w) as Hs. unfold same in Hs.
  pose proof (worker_iteration_same_thread w) as Ht. unfold same in Ht.
  destruct (IH (exec worker_iteration w)) as (Hr & Hk & Hth).
  { unfold exec. by rewrite Hs. }
  unfold run, exec in *. rewrite Hr, Hk, Hth. by rewrite Ht.
Qed.

Lemma running_worker_never_returns_witness :
  run (process_write_back_queue 5) (after_write_back no_fault) = Returned false /\
  queue_items (write_back_queue
                 (exec (process_write_back_queue 5) (after_write_back no_fault))) = [].
Proof.
  destruct (running_worker_never_returns 5 (after_write_back no_fault)) as (H & _).
  - reflexivity.
  - split; [exact H | vm_compute; reflexivity].
Defined.

Lemma process_write_back_queue_same_running fuel :
  stable (same write_back_running) (process_write_back_queue fuel).
Proof.
  induction fuel as [|fuel IH]; intros w; simpl;
    destruct (loop_condition w); try reflexivity.
  unfold bind. rewrite worker_iteration_eq. unfold same in *.
  rewrite IH. apply worker_iteration_same_running.
Qed.

Lemma queue_join_same_running fuel : stable (same write_back_running) (queue_join fuel).
Proof.
  induction fuel as [|fuel IH]; intros w; simpl;
    repeat (case_split; try reflexivity).
  unfold bind. rewrite worker_iteration_eq. unfold same in *.
  rewrite IH. apply worker_iteration_same_running.
Qed.

Lemma stop_write_back_thread_lowers_flag join_fuel patience w :
  write_back_running (exec (stop_write_back_thread join_fuel patience) w) = false.
Proof.
  unfold exec, stop_write_back_thread.
  destruct (write_back_running w) eqn:Hrun; simpl.
  - unfold bind at 1, modify at 1. unfold bind at 1.
    pose proof (queue_join_same_running join_fuel (set_running false w)) as Hj.
    destruct (queue_join join_fuel (set_running false w)) as [[[]|e] w1];
      unfold same in Hj; simpl in Hj; try exact Hj.
    unfold bind at 1. destruct (thread_alive w1).
    + unfold bind at 1.
      pose proof (process_write_back_queue_same_running patience w1) as Hp.
      destruct (process_write_back_queue patience w1) as [[b|e] w2];
        unfold same in Hp; simpl in Hp; simpl; congruence.
    + simpl. exact Hj.
  - destruct (thread_alive w); simpl; exact Hrun.
Qed.

Lemma stop_write_back_thread_when_lowered join_fuel patience w :
  write_back_running w = false ->
  stop_write_back_thread join_fuel patience w = (Returned true, w).
Proof.
  intros Hrun. unfold stop_write_back_thread. rewrite Hrun.
  by destruct (thread_alive w).
Qed.

(** X23: starting and stopping are idempotent.  [start] on a running pipeline
    and [stop] on one whose flag is down change nothing, so a second
    [start] after a [start], or a second [stop] after a [stop] (whatever
    the first one achieved), is a no-op; a [start] always leaves the
    flag up and a [stop] always leaves it down. *)
Theorem start_and_stop_are_idempotent (join_fuel patience join_fuel' patience' : nat)
    (w : World) :
  write_back_running (exec start_write_back_thread w) = true /\
  start_write_back_thread (exec start_write_back_thread w)
    = (Returned tt, exec start_write_back_thread w) /\
  write_back_running (exec (stop_write_back_thread join_fuel patience) w) = false /\
  stop_write_back_thread join_fuel' patience'
      (exec (stop_write_back_thread join_fuel patience) w)
    = (Returned true, exec (stop_write_back_thread join_fuel patience) w).
Proof.
  assert (Hstart : write_back_running (exec start_write_back_thread w) = true).
  { unfold exec, start_write_back_thread.
    destruct (write_back_running w) eqn:Hrun, (thread_alive w) eqn:Hal; simpl; done. }
  split; [exact Hstart|]. split.
  - unfold start_write_back_thread at 1. by rewrite Hstart.
  - split; [apply stop_write_back_thread_lowers_flag|].
    apply stop_write_back_thread_when_lowered, stop_write_back_thread_lowers_flag.
Qed.
